(** * Job collector: configuration resolution and multi-term aggregation

    A shallow embedding of [collector/collector.py] and the properties of
    its control flow: the module-level existence guard, the layered
    configuration (flag, environment, default), the per-term loop around
    the provider call, and the final [to_csv] call.

    Strings are [string]s whose characters stand for code points below
    256.  The environment [os.environ] is a [gmap string string].  The
    command line enters as the namespace [parse_args()] returns.  The
    provider, [os.makedirs] and [DataFrame.to_csv] belong to the world: a
    run is the sequence of the calls the collector makes and of what it
    prints, with what each call gave back; what a library does inside a
    call, the text [to_csv] puts into the file included, is not part of
    it. *)

From Stdlib Require Import ZArith NArith Ascii String List Bool Lia.
From stdpp Require Import base option list gmap strings.

Local Open Scope Z_scope.

(** ** Python string primitives *)

Module Str.

Definition comma : ascii := ascii_of_N 44.
Definition slash : ascii := ascii_of_N 47.
Definition backslash : ascii := ascii_of_N 92.

(** [str.isspace] on one code point below 256. *)
Definition isspace (c : ascii) : bool :=
  let n := N_of_ascii c in
  (((9 <=? n) && (n <=? 13)) || ((28 <=? n) && (n <=? 32))
   || (n =? 133) || (n =? 160))%N.

(** [str.lower] on one code point below 256. *)
Definition lower_char (c : ascii) : ascii :=
  let n := N_of_ascii c in
  if (((65 <=? n) && (n <=? 90))
      || ((192 <=? n) && (n <=? 222) && negb (n =? 215)))%N
  then ascii_of_N (n + 32) else c.

Fixpoint lower (s : string) : string :=
  match s with
  | EmptyString => EmptyString
  | String c s' => String (lower_char c) (lower s')
  end.

Fixpoint lstrip (s : string) : string :=
  match s with
  | EmptyString => EmptyString
  | String c s' => if isspace c then lstrip s' else s
  end.

Fixpoint rstrip (s : string) : string :=
  match s with
  | EmptyString => EmptyString
  | String c s' =>
      match rstrip s' with
      | EmptyString => if isspace c then EmptyString else String c EmptyString
      | r => String c r
      end
  end.

(** [s.strip()] *)
Definition strip (s : string) : string := rstrip (lstrip s).

(** [s.split(sep)] for a one-character separator: always at least one
    piece, one more piece than there are separators. *)
Fixpoint split (sep : ascii) (s : string) : list string :=
  match s with
  | EmptyString => [EmptyString]
  | String c s' =>
      if Ascii.eqb c sep then EmptyString :: split sep s'
      else match split sep s' with
           | t :: ts => String c t :: ts
           | [] => [String c EmptyString]
           end
  end.

(** [sep.join(l)] *)
Fixpoint join (sep : ascii) (l : list string) : string :=
  match l with
  | [] => EmptyString
  | [t] => t
  | t :: ts => t +:+ String sep (join sep ts)
  end.

(** Truthiness of a [str]: the empty string is falsy. *)
Definition truthy (s : string) : bool :=
  match s with EmptyString => false | String _ _ => true end.

Definition startswith (c : ascii) (s : string) : bool :=
  match s with String c' _ => Ascii.eqb c' c | EmptyString => false end.

Fixpoint endswith (c : ascii) (s : string) : bool :=
  match s with
  | EmptyString => false
  | String c' EmptyString => Ascii.eqb c' c
  | String _ s' => endswith c s'
  end.

Fixpoint all_chars (p : ascii -> bool) (s : string) : bool :=
  match s with
  | EmptyString => true
  | String c s' => p c && all_chars p s'
  end.

Fixpoint mem_char (c : ascii) (s : string) : bool :=
  match s with
  | EmptyString => false
  | String c' s' => Ascii.eqb c' c || mem_char c s'
  end.

(** Observations on strings, to say what [split] and [strip] compute. *)
(** There is one piece more than there are separators. *)
Fixpoint count_char (c : ascii) (s : string) : nat :=
  match s with
  | EmptyString => O
  | String c' s' => (if Ascii.eqb c' c then 1 else 0) + count_char c s'
  end%nat.

Definition head_space (s : string) : bool :=
  match s with String c _ => isspace c | EmptyString => false end.

Fixpoint last_space (s : string) : bool :=
  match s with
  | EmptyString => false
  | String c EmptyString => isspace c
  | String _ s' => last_space s'
  end.

End Str.

(** ** [int(str)] in base 10

    Blanks around the literal, an optional sign, decimal digits with
    single underscores between them.  The interpreter's limit on the
    number of digits is left out. *)

Module PyInt.

(** The blanks [int] skips around the literal. *)
Definition isspace (c : ascii) : bool :=
  let n := N_of_ascii c in
  (((9 <=? n) && (n <=? 13)) || (n =? 32) || (n =? 133) || (n =? 160))%N.

Definition digit (c : ascii) : option Z :=
  let n := N_of_ascii c in
  if ((48 <=? n) && (n <=? 57))%N then Some (Z.of_N n - 48) else None.

Definition underscore : ascii := ascii_of_N 95.
Definition plus : ascii := ascii_of_N 43.
Definition minus : ascii := ascii_of_N 45.

Fixpoint skip (s : string) : string :=
  match s with
  | EmptyString => EmptyString
  | String c s' => if isspace c then skip s' else s
  end.

(** Digits with single underscores between them.  [prev_us] tells that
    the previous character was an underscore, [acc] is the value read so
    far; the result is the value and the unread rest. *)
Fixpoint digits (prev_us : bool) (acc : Z) (s : string) : option (Z * string) :=
  match s with
  | EmptyString => if prev_us then None else Some (acc, EmptyString)
  | String c s' =>
      match digit c with
      | Some d => digits false (10 * acc + d) s'
      | None =>
          if Ascii.eqb c underscore
          then if prev_us then None else digits true acc s'
          else if prev_us then None else Some (acc, s)
      end
  end.

Definition unsigned (s : string) : option Z :=
  match s with
  | EmptyString => None
  | String c _ =>
      match digit c with
      | None => None
      | Some _ =>
          match digits false 0 s with
          | Some (v, rest) =>
              match skip rest with
              | EmptyString => Some v
              | String _ _ => None
              end
          | None => None
          end
      end
  end.

(** [int(s)]: [None] stands for [ValueError]. *)
Definition int (s : string) : option Z :=
  match skip s with
  | EmptyString => None
  | String c s' as t =>
      if Ascii.eqb c plus then unsigned s'
      else if Ascii.eqb c minus then Z.opp <$> unsigned s'
      else unsigned t
  end.

End PyInt.

(** ** [os.path.join] (POSIX) *)

Definition os_path_join (a b : string) : string :=
  if Str.startswith Str.slash b then b
  else if negb (Str.truthy a) || Str.endswith Str.slash a then a +:+ b
  else a +:+ String Str.slash b.

Definition flat_jobs_list : string := "flat_jobs_list.csv".

(** ** The command line, as [argparse] hands it over

    A flag that was not given is [None]; the two [store_true] flags are
    booleans. *)

Record Namespace := {
  site : option string;
  terms : option string;
  google_term : option string;
  location : option string;
  results : option Z;
  hours_old : option Z;
  country_indeed : option string;
  linkedin_fetch_description : bool;
  no_linkedin_fetch_description : bool;
  data_dir : option string
}.

(** The keyword arguments of one [scrape_jobs] call. *)
Record ScrapeArgs := {
  kw_site_name : list string;
  kw_search_term : string;
  kw_google_search_term : string;
  kw_location : string;
  kw_results_wanted : Z;
  kw_hours_old : Z;
  kw_country_indeed : string;
  kw_linkedin_fetch_description : bool
}.

(** The [csv] quoting constants and the keyword arguments of [to_csv];
    a keyword the call does not pass is [None] and keeps the library's
    default. *)
Inductive Quoting := QUOTE_MINIMAL | QUOTE_ALL | QUOTE_NONNUMERIC | QUOTE_NONE.

Record ToCsvArgs := {
  kw_sep : option ascii;
  kw_header : option bool;
  kw_quoting : option Quoting;
  kw_escapechar : option ascii;
  kw_index : option bool;
  kw_encoding : option string
}.

Inductive PyExn :=
| KeyError (key : string)
| ValueError (literal : string)
| OSError (path : string).

(** How the process ends: [sys.exit]/[SystemExit] with a code, or an
    exception nobody caught. *)
Inductive Outcome :=
| Exit (code : Z)
| Uncaught (e : PyExn).

(** What the [except] clause around [to_csv] may catch. *)
Inductive WriteCause :=
| UnboundLocal (name : string)
| WriteError (msg : string).

Inductive Msg :=
| MStarting
| MAlreadyExists (path : string)
| MExitingNormally
| MProcessing (term : string)
| MBothFlags
| MConfig (sites : list string) (term loc : string) (res hrs : Z)
| MScrapeFailed (e : string)
| MFound (total : Z)
| MWrote (path : string)
| MWriteFailed (c : WriteCause).

Section Collector.

(** A row of a provider batch; the collector never looks inside. *)
Context {Row : Type}.

(** What a call of the provider does: it returns a batch, or raises an
    [Exception], the class the [except] clause around the call catches. *)
Inductive ScrapeResult :=
| Returned (jobs : list Row)
| Raised (e : string).

(** What the process does, in order.  [Makedirs] and [ToCsv] stand for
    the call being made, whether it then returns or raises: after
    [ToCsv path frame k] the file at [path] may hold all of [frame], or,
    when the call raised, a part of it or nothing.  What the process says
    next tells which. *)
Inductive Event :=
| Stdout (m : Msg)
| Stderr (m : Msg)
| Makedirs (path : string)
| Scrape (nth : nat) (a : ScrapeArgs) (r : ScrapeResult)
| ToCsv (path : string) (frame : list Row) (k : ToCsvArgs).

(** Everything outside the process.  [scrape_jobs n a] is the provider's
    answer to the call with arguments [a] made after [n] earlier calls;
    [makedirs_error] and [to_csv_error] give the message of the error the
    operating system raises for a path, if any. *)
Record World := {
  environ : gmap string string;
  path_exists : string -> bool;
  makedirs_error : string -> option string;
  scrape_jobs : nat -> ScrapeArgs -> ScrapeResult;
  to_csv_error : string -> option string
}.

(** *** Control flow: a trace of events, then a value or the end *)

Inductive Flow (A : Type) :=
| Next (a : A)
| Halt (o : Outcome).
Global Arguments Next {A} a.
Global Arguments Halt {A} o.

Definition Run (A : Type) : Type := list Event * Flow A.

#[global] Instance run_ret : MRet Run := fun A a => ([], Next a).
#[global] Instance run_bind : MBind Run := fun A B f m =>
  match m with
  | (t, Next a) => let '(t', r) := f a in (t ++ t', r)
  | (t, Halt o) => (t, Halt o)
  end.

Definition emit (e : Event) : Run unit := ([e], Next tt).
Definition print (m : Msg) : Run unit := emit (Stdout m).
Definition eprint (m : Msg) : Run unit := emit (Stderr m).
Definition raise {A} (e : PyExn) : Run A := ([], Halt (Uncaught e)).
(** [return c] out of [main], which the last line turns into
    [SystemExit(c)]; [sys.exit(c)] is the same. *)
Definition exit_with {A} (c : Z) : Run A := ([], Halt (Exit c)).

(** *** Helpers of the module *)

(** [_env(key, default)] *)
Definition _env (w : World) (key default_ : string) : string :=
  default default_ (environ w !! key).

(** [_env_bool(key, default)] *)
Definition _env_bool (w : World) (key : string) (default_ : bool) : bool :=
  match environ w !! key with
  | None => default_
  | Some raw =>
      bool_decide (Str.lower (Str.strip raw) ∈ ["1"; "true"; "yes"; "y"])
  end.

(** [flag or fallback] for a string flag: [None] and the empty string
    are falsy. *)
Definition or_str (flag : option string) (fallback : string) : string :=
  match flag with
  | Some s => if Str.truthy s then s else fallback
  | None => fallback
  end.

(** [flag or int(raw)] for an integer flag: [None] and [0] are falsy,
    and [int] runs only then. *)
Definition or_int (flag : option Z) (raw : string) : Run Z :=
  match flag with
  | Some (Zpos _ as n) | Some (Zneg _ as n) => mret n
  | Some Z0 | None =>
      match PyInt.int raw with
      | Some n => mret n
      | None => raise (ValueError raw)
      end
  end.

(** [[s.strip() for s in csv.split(",") if s.strip()]] *)
Definition split_csv (csv : string) : list string :=
  Str.strip <$> filter (fun s => Str.truthy (Str.strip s) = true) (Str.split Str.comma csv).

Definition os_makedirs (w : World) (path : string) : Run unit :=
  emit (Makedirs path);;
  match makedirs_error w path with
  | Some _ => raise (OSError path)
  | None => mret tt
  end.

(** *** [main] *)

(** The local variables the loop carries; [out_csv] is unbound until the
    first pass through the body assigns it. *)
Record Locals := {
  jobcollected : list Row;
  totaljobcount : Z;
  out_csv : option string;
  calls : nat
}.

Definition to_csv_kwargs : ToCsvArgs :=
  {| kw_sep := None; kw_header := None;
     kw_quoting := Some QUOTE_NONNUMERIC;
     kw_escapechar := Some Str.backslash;
     kw_index := Some false;
     kw_encoding := Some "utf-8-sig" |}.

(** One pass through the body of [for search_term in search_terms]. *)
Definition body (w : World) (args : Namespace) (site_name : list string)
    (st : Locals) (search_term : string) : Run Locals :=
  print (MProcessing search_term);;
  let google_term := or_str (google_term args) (_env w "GOOGLE_SEARCH_TERM" search_term) in
  let location := or_str (location args) (_env w "LOCATION" "Canada") in
  results_wanted ← or_int (results args) (_env w "RESULTS_WANTED" "20");
  hours_old ← or_int (hours_old args) (_env w "HOURS_OLD" "24");
  let country_indeed := or_str (country_indeed args) (_env w "COUNTRY_INDEED" "canada") in
  (if linkedin_fetch_description args && no_linkedin_fetch_description args
   then eprint MBothFlags else mret tt);;
  let linkedin_fetch_description :=
    if no_linkedin_fetch_description args then false
    else if linkedin_fetch_description args then true
    else _env_bool w "LINKEDIN_FETCH_DESCRIPTION" true in
  let data_dir := or_str (data_dir args) (_env w "DATA_DIR" "/DATA") in
  os_makedirs w data_dir;;
  let out_csv := os_path_join data_dir flat_jobs_list in
  print (MConfig site_name search_term location results_wanted hours_old);;
  let kwargs :=
    {| kw_site_name := site_name;
       kw_search_term := search_term;
       kw_google_search_term := google_term;
       kw_location := location;
       kw_results_wanted := results_wanted;
       kw_hours_old := hours_old;
       kw_country_indeed := country_indeed;
       kw_linkedin_fetch_description := linkedin_fetch_description |} in
  let r := scrape_jobs w (calls st) kwargs in
  emit (Scrape (calls st) kwargs r);;
  match r with
  | Raised e => eprint (MScrapeFailed e);; exit_with 2
  | Returned jobs =>
      mret {| jobcollected := jobcollected st ++ jobs;
              totaljobcount := totaljobcount st + Z.of_nat (length jobs);
              out_csv := Some out_csv;
              calls := S (calls st) |}
  end.

Fixpoint loop (w : World) (args : Namespace) (site_name : list string)
    (st : Locals) (search_terms : list string) : Run Locals :=
  match search_terms with
  | [] => mret st
  | search_term :: rest =>
      st' ← body w args site_name st search_term;
      loop w args site_name st' rest
  end.

Definition initial : Locals :=
  {| jobcollected := []; totaljobcount := 0; out_csv := None; calls := 0 |}.

(** The [try] around [to_csv]: any exception, also the one of reading
    the unbound [out_csv], is caught and turned into return code 3.  The
    arguments are evaluated first, so an unbound [out_csv] stops the
    statement before [to_csv] is entered; once they are there the call is
    made, and it is the call that returns or raises. *)
Definition write (w : World) (st : Locals) : Run Z :=
  match out_csv st with
  | None => eprint (MWriteFailed (UnboundLocal "out_csv"));; mret 3
  | Some path =>
      emit (ToCsv path (jobcollected st) to_csv_kwargs);;
      match to_csv_error w path with
      | Some msg => eprint (MWriteFailed (WriteError msg));; mret 3
      | None => print (MWrote path);; mret 0
      end
  end.

Definition search_terms_of (w : World) (args : Namespace) : list string :=
  split_csv (or_str (terms args) (_env w "SEARCH_TERMS" "Azure,devops")).

Definition site_name_of (w : World) (args : Namespace) : list string :=
  split_csv (or_str (site args) (_env w "SITE_NAME" "indeed,linkedin,glassdoor")).

Definition main (w : World) (args : Namespace) : Run Z :=
  let site_name := site_name_of w args in
  let search_terms := search_terms_of w args in
  st ← loop w args site_name initial search_terms;
  print (MFound (totaljobcount st));;
  write w st.

(** *** The module, top to bottom *)

(** [os.environ[key]] *)
Definition environ_getitem (w : World) (key : string) : Run string :=
  match environ w !! key with
  | Some v => mret v
  | None => raise (KeyError key)
  end.

Definition module (w : World) (args : Namespace) : Run Z :=
  print MStarting;;
  d ← environ_getitem w "DATA_DIR";
  (if path_exists w (os_path_join d flat_jobs_list)
   then print (MAlreadyExists (os_path_join d flat_jobs_list));;
        print MExitingNormally;;
        exit_with 0
   else mret tt);;
  main w args.

(** The process: its trace and how it ended. *)
Definition collector (w : World) (args : Namespace) : list Event * Outcome :=
  match module w args with
  | (t, Next c) => (t, Exit c)
  | (t, Halt o) => (t, o)
  end.

End Collector.

(** ** Specification-side definitions *)

(** The list of terms in the specification's words: split on commas,
    trim every piece, drop the empty ones; the order is that of the
    pieces. *)
Definition split_trim_drop (csv : string) : list string :=
  filter (fun t => t <> EmptyString) (Str.strip <$> Str.split Str.comma csv).

Definition tokens_true : list string := ["1"; "true"; "yes"; "y"].

(** The environment boolean as the specification words it: the four
    tokens, in any case, give true; any other token, or no variable, gives
    the default. *)
Definition env_bool_as_specified (raw : option string) (default_ : bool) : bool :=
  match raw with
  | Some s => if bool_decide (Str.lower (Str.strip s) ∈ tokens_true) then true else default_
  | None => default_
  end.

(** The three tiers in the specification's words: the flag if it
    provides a value, else the environment variable if it is set, else
    the built-in default. *)
Definition precedence {A} (flag env : option A) (default_ : A) : A :=
  match flag, env with
  | Some v, _ => v
  | None, Some v => v
  | None, None => default_
  end.

(** A string flag provides a value unless it is absent or empty; an
    integer flag ([int_flag]) unless it is absent or zero. *)
Definition str_flag (flag : option string) : option string :=
  match flag with
  | Some s => if Str.truthy s then Some s else None
  | None => None
  end.

(** The two [store_true] flags read as one flag: disabling outranks
    enabling, and with neither the flag provides nothing. *)
Definition bool_flag (enable disable : bool) : option bool :=
  if disable then Some false else if enable then Some true else None.

(** What a boolean variable that is set provides: whether its value,
    trimmed and in lower case, is one of the tokens. *)
Definition env_token (s : string) : bool :=
  bool_decide (Str.lower (Str.strip s) ∈ tokens_true).

(** An integer flag provides a value unless it is absent or zero. *)
Definition int_flag (flag : option Z) : option Z :=
  match flag with Some 0 => None | x => x end.

(** The integer a pass resolves: the flag if it provides one, else what
    [int] reads from the variable or the default. *)
Definition resolved_int (flag : option Z) (raw : string) (n : Z) : Prop :=
  Some n = from_option Some (PyInt.int raw) (int_flag flag).

(** Both [store_true] flags given. *)
Definition both_flags (args : Namespace) : bool :=
  linkedin_fetch_description args && no_linkedin_fetch_description args.

(** The command line with [--results] or [--hours-old] replaced. *)
Definition with_results (v : option Z) (args : Namespace) : Namespace :=
  {| site := site args; terms := terms args; google_term := google_term args;
     location := location args; results := v; hours_old := hours_old args;
     country_indeed := country_indeed args;
     linkedin_fetch_description := linkedin_fetch_description args;
     no_linkedin_fetch_description := no_linkedin_fetch_description args;
     data_dir := data_dir args |}.

Definition with_hours_old (v : option Z) (args : Namespace) : Namespace :=
  {| site := site args; terms := terms args; google_term := google_term args;
     location := location args; results := results args; hours_old := v;
     country_indeed := country_indeed args;
     linkedin_fetch_description := linkedin_fetch_description args;
     no_linkedin_fetch_description := no_linkedin_fetch_description args;
     data_dir := data_dir args |}.

(** How the process ends once [main] is over. *)
Definition finish (r : Flow Z) : Outcome :=
  match r with Next c => Exit c | Halt o => o end.

(** ** Observations on traces *)

Section Observations.

Context {Row : Type}.
Abbreviation Event := (@Event Row).
Abbreviation World := (@World Row).
Abbreviation Locals := (@Locals Row).
Abbreviation Run := (@Run Row).

(** The provider calls of a trace, in order. *)
Definition scrapes (t : list Event) : list (nat * ScrapeArgs * @ScrapeResult Row) :=
  omap (fun ev => match ev with Scrape n a r => Some (n, a, r) | _ => None end) t.

(** The terms the provider was asked for. *)
Definition scrape_terms (t : list Event) : list string :=
  (fun c => kw_search_term c.1.2) <$> scrapes t.

(** The batches the provider returned. *)
Definition batches (t : list Event) : list (list Row) :=
  omap (fun ev => match ev with Scrape _ _ (Returned jobs) => Some jobs | _ => None end) t.

(** The provider calls that raised. *)
Definition raised (t : list Event) : list (nat * ScrapeArgs * string) :=
  omap (fun ev => match ev with Scrape n a (Raised e) => Some (n, a, e) | _ => None end) t.

(** The [to_csv] calls: path, frame and keywords. *)
Definition writes (t : list Event) : list (string * list Row * ToCsvArgs) :=
  omap (fun ev => match ev with ToCsv p f k => Some (p, f, k) | _ => None end) t.

(** The totals reported. *)
Definition founds (t : list Event) : list Z :=
  omap (fun ev => match ev with Stdout (MFound n) => Some n | _ => None end) t.

(** The sum of the batch lengths. *)
Definition sum_lengths (bs : list (list Row)) : Z :=
  foldr (fun b acc => Z.of_nat (length b) + acc) 0 bs.

(** *** One pass through the loop body

    The shapes a pass can take: it dies on a malformed integer, dies in
    [os.makedirs], returns 2 after the provider raised, or hands the
    updated locals to the next pass. *)

(** The output directory and the keyword arguments every pass resolves,
    given the two integers. *)
Definition data_dir_of (w : World) (args : Namespace) : string :=
  or_str (data_dir args) (_env w "DATA_DIR" "/DATA").

Definition kwargs_of (w : World) (args : Namespace) (sites : list string)
    (term : string) (rw ho : Z) : ScrapeArgs :=
  {| kw_site_name := sites;
     kw_search_term := term;
     kw_google_search_term := or_str (google_term args) (_env w "GOOGLE_SEARCH_TERM" term);
     kw_location := or_str (location args) (_env w "LOCATION" "Canada");
     kw_results_wanted := rw;
     kw_hours_old := ho;
     kw_country_indeed := or_str (country_indeed args) (_env w "COUNTRY_INDEED" "canada");
     kw_linkedin_fetch_description :=
       if no_linkedin_fetch_description args then false
       else if linkedin_fetch_description args then true
       else _env_bool w "LINKEDIN_FETCH_DESCRIPTION" true |}.

(** The events of a pass up to the provider call. *)
Definition warning (args : Namespace) : list Event :=
  if both_flags args then [Stderr MBothFlags] else [].

Definition before_call (w : World) (args : Namespace) (sites : list string)
    (term : string) (rw ho : Z) : list Event :=
  Stdout (MProcessing term) :: warning args
  ++ [Makedirs (data_dir_of w args);
      Stdout (MConfig sites term (or_str (location args) (_env w "LOCATION" "Canada")) rw ho)].

Inductive body_result (w : World) (args : Namespace) (sites : list string)
    (st : Locals) (term : string) : Run Locals -> Prop :=
| body_bad_results :
    int_flag (results args) = None ->
    PyInt.int (_env w "RESULTS_WANTED" "20") = None ->
    body_result w args sites st term
      ([Stdout (MProcessing term)],
       Halt (Uncaught (ValueError (_env w "RESULTS_WANTED" "20"))))
| body_bad_hours rw :
    resolved_int (results args) (_env w "RESULTS_WANTED" "20") rw ->
    int_flag (hours_old args) = None ->
    PyInt.int (_env w "HOURS_OLD" "24") = None ->
    body_result w args sites st term
      ([Stdout (MProcessing term)],
       Halt (Uncaught (ValueError (_env w "HOURS_OLD" "24"))))
| body_makedirs_failed rw ho msg :
    resolved_int (results args) (_env w "RESULTS_WANTED" "20") rw ->
    resolved_int (hours_old args) (_env w "HOURS_OLD" "24") ho ->
    makedirs_error w (data_dir_of w args) = Some msg ->
    body_result w args sites st term
      (Stdout (MProcessing term) :: warning args ++ [Makedirs (data_dir_of w args)],
       Halt (Uncaught (OSError (data_dir_of w args))))
| body_raised rw ho e :
    resolved_int (results args) (_env w "RESULTS_WANTED" "20") rw ->
    resolved_int (hours_old args) (_env w "HOURS_OLD" "24") ho ->
    makedirs_error w (data_dir_of w args) = None ->
    scrape_jobs w (calls st) (kwargs_of w args sites term rw ho) = Raised e ->
    body_result w args sites st term
      (before_call w args sites term rw ho
       ++ [Scrape (calls st) (kwargs_of w args sites term rw ho) (Raised e);
           Stderr (MScrapeFailed e)],
       Halt (Exit 2))
| body_returned rw ho jobs :
    resolved_int (results args) (_env w "RESULTS_WANTED" "20") rw ->
    resolved_int (hours_old args) (_env w "HOURS_OLD" "24") ho ->
    makedirs_error w (data_dir_of w args) = None ->
    scrape_jobs w (calls st) (kwargs_of w args sites term rw ho) = Returned jobs ->
    body_result w args sites st term
      (before_call w args sites term rw ho
       ++ [Scrape (calls st) (kwargs_of w args sites term rw ho) (Returned jobs)],
       Next {| jobcollected := jobcollected st ++ jobs;
               totaljobcount := totaljobcount st + Z.of_nat (length jobs);
               out_csv := Some (os_path_join (data_dir_of w args) flat_jobs_list);
               calls := S (calls st) |}).

(** What an event of the loop can be: every provider call carries the
    keyword arguments resolved from flags and environment together with
    the provider's answer, and [os.makedirs] only ever sees the resolved
    output directory. *)
Definition loop_event (w : World) (args : Namespace) (sites : list string)
    (ev : Event) : Prop :=
  (exists term, ev = Stdout (MProcessing term))
  \/ (ev = Stderr MBothFlags /\ both_flags args = true)
  \/ ev = Makedirs (data_dir_of w args)
  \/ (exists term rw ho,
        ev = Stdout (MConfig sites term (or_str (location args) (_env w "LOCATION" "Canada")) rw ho))
  \/ (exists n term rw ho,
        resolved_int (results args) (_env w "RESULTS_WANTED" "20") rw
        /\ resolved_int (hours_old args) (_env w "HOURS_OLD" "24") ho
        /\ ev = Scrape n (kwargs_of w args sites term rw ho)
                  (scrape_jobs w n (kwargs_of w args sites term rw ho)))
  \/ (exists e, ev = Stderr (MScrapeFailed e)).

(** Events of [main] outside the loop. *)
Definition outer_event (ev : Event) : Prop :=
  match ev with
  | Stdout (MFound _) | Stdout (MWrote _) | Stderr (MWriteFailed _) | ToCsv _ _ _ => True
  | _ => False
  end.

End Observations.

(** ** Concrete inputs *)

Module Scenario.

(** Rows are numbered; a world is given by its environment, the files
    that exist and the provider. *)
Definition world (env : list (string * string)) (existing : list string)
    (provider : nat -> ScrapeArgs -> @ScrapeResult nat) : @World nat :=
  {| environ := list_to_map env;
     path_exists := fun p => bool_decide (p ∈ existing);
     makedirs_error := fun _ => None;
     scrape_jobs := provider;
     to_csv_error := fun _ => None |}.

Definition no_flags : Namespace :=
  {| site := None; terms := None; google_term := None; location := None;
     results := None; hours_old := None; country_indeed := None;
     linkedin_fetch_description := false; no_linkedin_fetch_description := false;
     data_dir := None |}.

(** The provider answers by term. *)
Definition by_term (answers : list (string * @ScrapeResult nat))
    (_ : nat) (a : ScrapeArgs) : @ScrapeResult nat :=
  default (Returned []) (snd <$> List.find (fun p => String.eqb (fst p) (kw_search_term a)) answers).

(** Three terms, the provider fails on the second. *)
Definition second_fails : @World nat :=
  world [("DATA_DIR", "/out"); ("SEARCH_TERMS", "a,b,c")] []
    (by_term [("a", Returned [1; 2]); ("b", Raised "timeout"); ("c", Returned [3])])%nat.

Definition second_fails_run : list (@Event nat) * Outcome :=
  Eval vm_compute in collector second_fails no_flags.

Definition second_fails_call : ScrapeArgs :=
  {| kw_site_name := ["indeed"; "linkedin"; "glassdoor"];
     kw_search_term := "b"; kw_google_search_term := "b";
     kw_location := "Canada"; kw_results_wanted := 20; kw_hours_old := 24;
     kw_country_indeed := "canada"; kw_linkedin_fetch_description := true |}.

(** Two terms, three rows for the first and five for the second. *)
Definition three_and_five : @World nat :=
  world [("DATA_DIR", "/out"); ("SEARCH_TERMS", "a,b")] []
    (by_term [("a", Returned [1; 2; 3]); ("b", Returned [4; 5; 6; 7; 8])])%nat.

Definition three_and_five_run : list (@Event nat) * Outcome :=
  Eval vm_compute in collector three_and_five no_flags.

Definition one_batch : nat -> ScrapeArgs -> @ScrapeResult nat :=
  fun _ _ => Returned [1%nat].

(** [LINKEDIN_FETCH_DESCRIPTION] in upper case with blanks around it. *)
Definition fetch_yes : @World nat :=
  world [("DATA_DIR", "/out"); ("SEARCH_TERMS", "a");
         ("LINKEDIN_FETCH_DESCRIPTION", " YES ")] [] one_batch.

(** [LINKEDIN_FETCH_DESCRIPTION] set to a token outside the list. *)
Definition fetch_false : @World nat :=
  world [("DATA_DIR", "/out"); ("SEARCH_TERMS", "a");
         ("LINKEDIN_FETCH_DESCRIPTION", "false")] [] one_batch.

Definition call_a (fetch : bool) : ScrapeArgs :=
  {| kw_site_name := ["indeed"; "linkedin"; "glassdoor"];
     kw_search_term := "a"; kw_google_search_term := "a";
     kw_location := "Canada"; kw_results_wanted := 20; kw_hours_old := 24;
     kw_country_indeed := "canada"; kw_linkedin_fetch_description := fetch |}.

(** All three tiers at once: every flag given, every variable set. *)
Definition all_tiers : @World nat :=
  world [("DATA_DIR", "/env"); ("SEARCH_TERMS", "envterm"); ("SITE_NAME", "envsite");
         ("GOOGLE_SEARCH_TERM", "envgoogle"); ("LOCATION", "Berlin");
         ("RESULTS_WANTED", "50"); ("HOURS_OLD", "72"); ("COUNTRY_INDEED", "germany")]
        [] one_batch.

Definition all_flags : Namespace :=
  {| site := Some "linkedin, indeed"; terms := Some "flagterm";
     google_term := Some "flaggoogle"; location := Some "Paris";
     results := Some 5; hours_old := Some 12; country_indeed := Some "france";
     linkedin_fetch_description := false; no_linkedin_fetch_description := false;
     data_dir := Some "/flag" |}.

Definition all_flags_call : ScrapeArgs :=
  {| kw_site_name := ["linkedin"; "indeed"];
     kw_search_term := "flagterm"; kw_google_search_term := "flaggoogle";
     kw_location := "Paris"; kw_results_wanted := 5; kw_hours_old := 12;
     kw_country_indeed := "france"; kw_linkedin_fetch_description := true |}.

(** An empty [--location] and a zero [--results] against a populated
    environment. *)
Definition falsy_flags : Namespace :=
  {| site := None; terms := Some "a"; google_term := None;
     location := Some EmptyString; results := Some 0; hours_old := None;
     country_indeed := None;
     linkedin_fetch_description := false; no_linkedin_fetch_description := false;
     data_dir := None |}.

Definition falsy_flags_call : ScrapeArgs :=
  {| kw_site_name := ["envsite"];
     kw_search_term := "a"; kw_google_search_term := "envgoogle";
     kw_location := "Berlin"; kw_results_wanted := 50; kw_hours_old := 72;
     kw_country_indeed := "germany"; kw_linkedin_fetch_description := true |}.

(** [--results 0 --hours-old 0] and no other flag. *)
Definition zero_flags : Namespace :=
  {| site := None; terms := None; google_term := None; location := None;
     results := Some 0; hours_old := Some 0; country_indeed := None;
     linkedin_fetch_description := false; no_linkedin_fetch_description := false;
     data_dir := None |}.

(** [--data-dir /flag] with the file already there, [DATA_DIR=/env]
    without it. *)
Definition file_in_flag_dir : @World nat :=
  world [("DATA_DIR", "/env"); ("SEARCH_TERMS", "a")] ["/flag/flat_jobs_list.csv"] one_batch.

Definition data_dir_flag : Namespace :=
  {| site := None; terms := None; google_term := None; location := None;
     results := None; hours_old := None; country_indeed := None;
     linkedin_fetch_description := false; no_linkedin_fetch_description := false;
     data_dir := Some "/flag" |}.

(** No [DATA_DIR] in the environment, the file present in the default
    directory. *)
Definition file_in_default_dir : @World nat :=
  world [("SEARCH_TERMS", "a")] ["/DATA/flat_jobs_list.csv"] one_batch.

(** [SEARCH_TERMS] holds nothing but separators and blanks. *)
Definition no_terms : @World nat :=
  world [("DATA_DIR", "/out"); ("SEARCH_TERMS", " , ,")] [] one_batch.

End Scenario.

(** ** Further observations and inputs *)

(** A string of blanks only, and a string of commas and blanks only. *)
Definition blank (s : string) : bool := Str.all_chars Str.isspace s.

Definition only_separators (s : string) : bool :=
  Str.all_chars (fun c => Str.isspace c || Ascii.eqb c Str.comma) s.

Section MoreObservations.

Context {Row : Type}.

(** The directories [os.makedirs] was called with, in order. *)
Definition makedirs_calls (t : list (@Event Row)) : list string :=
  omap (fun ev => match ev with Makedirs p => Some p | _ => None end) t.

(** The both-flags warnings on the error stream. *)
Definition warnings (t : list (@Event Row)) : list unit :=
  omap (fun ev => match ev with Stderr MBothFlags => Some tt | _ => None end) t.

(** The same world after the file [p] has come into being. *)
Definition with_file (p : string) (w : @World Row) : @World Row :=
  {| environ := environ w;
     path_exists := fun q => if String.eqb q p then true else path_exists w q;
     makedirs_error := makedirs_error w;
     scrape_jobs := scrape_jobs w;
     to_csv_error := to_csv_error w |}.

(** The fields of a provider call that do not depend on the term. *)
Definition shared_config (a : ScrapeArgs) : list string * string * Z * Z * string * bool :=
  (kw_site_name a, kw_location a, kw_results_wanted a, kw_hours_old a,
   kw_country_indeed a, kw_linkedin_fetch_description a).

End MoreObservations.

Module Scenario3.

(** [RESULTS_WANTED] is not a number. *)
Definition bad_results : @World nat :=
  Scenario.world [("DATA_DIR", "/out"); ("SEARCH_TERMS", "a,b"); ("RESULTS_WANTED", "many")]
    [] Scenario.one_batch.

(** The output directory cannot be made. *)
Definition no_directory : @World nat :=
  {| environ := list_to_map [("DATA_DIR", "/out"); ("SEARCH_TERMS", "a,b")];
     path_exists := fun _ => false;
     makedirs_error := fun _ => Some "Permission denied";
     scrape_jobs := Scenario.one_batch;
     to_csv_error := fun _ => None |}.

(** The disk is full: [to_csv] raises. *)
Definition disk_full : @World nat :=
  {| environ := list_to_map [("DATA_DIR", "/out"); ("SEARCH_TERMS", "a,b")];
     path_exists := fun _ => false;
     makedirs_error := fun _ => None;
     scrape_jobs := Scenario.one_batch;
     to_csv_error := fun _ => Some "No space left on device" |}.

(** Both integer flags given, both variables malformed. *)
Definition bad_integers : @World nat :=
  Scenario.world [("DATA_DIR", "/out"); ("SEARCH_TERMS", "a");
                  ("RESULTS_WANTED", "many"); ("HOURS_OLD", "few")] [] Scenario.one_batch.

Definition integer_flags : Namespace :=
  {| site := None; terms := None; google_term := None; location := None;
     results := Some (-3); hours_old := Some 12; country_indeed := None;
     linkedin_fetch_description := false; no_linkedin_fetch_description := false;
     data_dir := None |}.

(** [SITE_NAME] set, but to separators only. *)
Definition no_sites : @World nat :=
  Scenario.world [("DATA_DIR", "/out"); ("SEARCH_TERMS", "a"); ("SITE_NAME", " ,")]
    [] Scenario.one_batch.

Definition both_given : Namespace :=
  {| site := None; terms := None; google_term := None; location := None;
     results := None; hours_old := None; country_indeed := None;
     linkedin_fetch_description := true; no_linkedin_fetch_description := true;
     data_dir := None |}.

(** Two terms and nothing in the way. *)
Definition all_well : @World nat :=
  Scenario.world [("DATA_DIR", "/out"); ("SEARCH_TERMS", "a,b")] [] Scenario.one_batch.

End Scenario3.

(** * Properties *)

Example join_dir : os_path_join "/out" flat_jobs_list = "/out/flat_jobs_list.csv"
  /\ os_path_join "/out/" flat_jobs_list = "/out/flat_jobs_list.csv"
  /\ os_path_join EmptyString flat_jobs_list = "flat_jobs_list.csv".
Proof. repeat split; reflexivity. Qed.
Example int_20 : PyInt.int "20" = Some 20.
Proof. reflexivity. Qed.
Example int_blank_signed : PyInt.int " -1_000 " = Some (-1000).
Proof. reflexivity. Qed.
Example int_bad : PyInt.int "1__0" = None /\ PyInt.int "abc" = None /\ PyInt.int "- 1" = None
  /\ PyInt.int "_1" = None /\ PyInt.int "1_" = None /\ PyInt.int "12 3" = None.
Proof. repeat split; reflexivity. Qed.
Example split_ex : Str.split Str.comma "a,,b," = ["a"; EmptyString; "b"; EmptyString].
Proof. reflexivity. Qed.
Example strip_ex : Str.strip "  a b  " = "a b".
Proof. reflexivity. Qed.

(** ** Strings: what [split] and [strip] compute *)

Module StrFacts.
Import Str.

Lemma truthy_true s : truthy s = true <-> s <> EmptyString.
Proof. destruct s; simpl; split; congruence. Qed.

Lemma split_nonempty sep s : split sep s <> [].
Proof.
  induction s as [|c s IH]; simpl; [discriminate|].
  destruct (Ascii.eqb c sep); [discriminate|].
  destruct (split sep s); discriminate.
Qed.

(** Joining the pieces with the separator gives the string back. *)
Lemma join_split sep s : join sep (split sep s) = s.
Proof.
  induction s as [|c s IH]; simpl; [reflexivity|].
  destruct (Ascii.eqb_spec c sep) as [->|Hne].
  - pose proof (split_nonempty sep s) as Hs.
    destruct (split sep s) as [|t ts]; [congruence|].
    simpl in *. now rewrite IH.
  - destruct (split sep s) as [|t ts] eqn:E; [now apply split_nonempty in E|].
    simpl in *. destruct ts; simpl in *; now rewrite <- IH.
Qed.

(** No piece contains the separator. *)
Lemma split_sep_free sep s t : t ∈ split sep s -> mem_char sep t = false.
Proof.
  revert t. induction s as [|c s IH]; simpl; intros t Ht.
  - apply list_elem_of_singleton in Ht as ->. reflexivity.
  - destruct (Ascii.eqb c sep) eqn:Ec.
    + apply elem_of_cons in Ht as [->|Ht]; [reflexivity|auto].
    + destruct (split sep s) as [|u us] eqn:E; [now apply split_nonempty in E|].
      apply elem_of_cons in Ht as [->|Ht].
      * simpl. rewrite Ec. apply IH. left.
      * apply IH. now right.
Qed.

Lemma split_length sep s : length (split sep s) = S (count_char sep s).
Proof.
  induction s as [|c s IH]; simpl; [reflexivity|].
  destruct (Ascii.eqb c sep); simpl; [now rewrite IH|].
  destruct (split sep s) as [|u us] eqn:E; [now apply split_nonempty in E|].
  simpl in *. exact IH.
Qed.

Lemma app_cons c s t : String c s +:+ t = String c (s +:+ t).
Proof. reflexivity. Qed.

Lemma app_empty t : EmptyString +:+ t = t.
Proof. reflexivity. Qed.

Lemma lstrip_head s : head_space (lstrip s) = false.
Proof.
  induction s as [|c s IH]; simpl; [reflexivity|].
  destruct (isspace c) eqn:E; [exact IH|]. simpl. exact E.
Qed.

Lemma rstrip_last s : last_space (rstrip s) = false.
Proof.
  induction s as [|c s IH]; simpl; [reflexivity|].
  destruct (rstrip s) as [|d r] eqn:E.
  - destruct (isspace c) eqn:Ec; simpl; [reflexivity|exact Ec].
  - simpl in *. exact IH.
Qed.

Lemma rstrip_head s : head_space s = false -> head_space (rstrip s) = false.
Proof.
  destruct s as [|c s]; simpl; [reflexivity|]. intros Hc.
  destruct (rstrip s); [rewrite Hc|]; simpl; auto.
Qed.

(** [lstrip] removes a run of blanks in front, and nothing else. *)
Lemma lstrip_decompose s :
  exists l, s = l +:+ lstrip s /\ all_chars isspace l = true.
Proof.
  induction s as [|c s (l & Hl & Hsp)]; simpl.
  - exists EmptyString. split; reflexivity.
  - destruct (isspace c) eqn:E.
    + exists (String c l). rewrite app_cons. simpl. rewrite E, Hsp.
      split; [now f_equal|reflexivity].
    + exists EmptyString. split; reflexivity.
Qed.

(** [rstrip] removes a run of blanks at the end, and nothing else. *)
Lemma rstrip_decompose s :
  exists r, s = rstrip s +:+ r /\ all_chars isspace r = true.
Proof.
  induction s as [|c s (r & Hr & Hsp)]; simpl.
  - exists EmptyString. split; reflexivity.
  - destruct (rstrip s) as [|d u] eqn:E.
    + destruct (isspace c) eqn:Ec.
      * exists (String c r). rewrite app_empty in *. simpl. rewrite Ec, Hsp.
        split; [now f_equal|reflexivity].
      * exists r. rewrite app_cons. split; [now f_equal|exact Hsp].
    + exists r. split; [|exact Hsp]. rewrite app_cons. now f_equal.
Qed.

(** [strip] keeps the middle of the string: blanks go from both ends,
    and what is left neither starts nor ends with a blank. *)
Lemma strip_decompose s :
  exists l r, s = l +:+ strip s +:+ r
              /\ all_chars isspace l = true /\ all_chars isspace r = true.
Proof.
  destruct (lstrip_decompose s) as (l & Hl & Hsl).
  destruct (rstrip_decompose (lstrip s)) as (r & Hr & Hsr).
  exists l, r. unfold strip. split; [|split]; auto.
  rewrite <- Hr. exact Hl.
Qed.

Lemma strip_trimmed s :
  head_space (strip s) = false /\ last_space (strip s) = false.
Proof.
  unfold strip. split; [apply rstrip_head, lstrip_head|apply rstrip_last].
Qed.

Lemma lstrip_id s : head_space s = false -> lstrip s = s.
Proof. destruct s as [|c s]; simpl; [reflexivity|]. now intros ->. Qed.

Lemma rstrip_id s : last_space s = false -> rstrip s = s.
Proof.
  induction s as [|c s IH]; simpl; [reflexivity|].
  destruct s as [|d s].
  - simpl. now intros ->.
  - intros H. rewrite (IH H). reflexivity.
Qed.

Lemma strip_idempotent s : strip (strip s) = strip s.
Proof.
  destruct (strip_trimmed s) as [Hh Hl].
  unfold strip at 1. rewrite (lstrip_id _ Hh). now apply rstrip_id.
Qed.

Lemma mem_char_app c s1 s2 :
  mem_char c (s1 +:+ s2) = mem_char c s1 || mem_char c s2.
Proof.
  induction s1 as [|d s1 IH]; [reflexivity|].
  rewrite app_cons. simpl. rewrite IH. now rewrite orb_assoc.
Qed.

Lemma strip_sep_free c s : mem_char c s = false -> mem_char c (strip s) = false.
Proof.
  destruct (strip_decompose s) as (l & r & Hs & _ & _).
  intros H. rewrite Hs in H. rewrite !mem_char_app in H.
  apply orb_false_iff in H as [_ H]. now apply orb_false_iff in H as [H _].
Qed.

End StrFacts.

Lemma fmap_filter_comm {A B} (f : A -> B) (P : B -> Prop)
    `{forall y, Decision (P y)} (l : list A) :
  f <$> filter (fun x => P (f x)) l = filter P (f <$> l).
Proof.
  induction l as [|x l IH]; [reflexivity|].
  rewrite fmap_cons, !filter_cons.
  destruct (decide (P (f x))); [rewrite fmap_cons|]; now rewrite IH.
Qed.

Lemma split_csv_split_trim_drop csv : split_csv csv = split_trim_drop csv.
Proof.
  unfold split_csv, split_trim_drop.
  rewrite <- (fmap_filter_comm Str.strip (fun t => t <> EmptyString)).
  f_equal. apply list_filter_iff. intros s. apply StrFacts.truthy_true.
Qed.

Lemma split_csv_tokens csv t :
  t ∈ split_csv csv ->
  t <> EmptyString /\ Str.strip t = t /\ Str.mem_char Str.comma t = false.
Proof.
  rewrite split_csv_split_trim_drop. unfold split_trim_drop.
  intros [Hne Ht]%list_elem_of_filter.
  apply list_elem_of_fmap in Ht as (p & -> & Hp).
  split; [exact Hne|]. split; [apply StrFacts.strip_idempotent|].
  apply StrFacts.strip_sep_free. eapply StrFacts.split_sep_free; eauto.
Qed.

(** ** Traces *)

Section Traces.

Context {Row : Type}.
Abbreviation Event := (@Event Row).
Abbreviation World := (@World Row).
Abbreviation Locals := (@Locals Row).
Abbreviation Run := (@Run Row).

Lemma scrapes_app (t1 t2 : list Event) : scrapes (t1 ++ t2) = scrapes t1 ++ scrapes t2.
Proof. apply omap_app. Qed.
Lemma scrape_terms_app (t1 t2 : list Event) :
  scrape_terms (t1 ++ t2) = scrape_terms t1 ++ scrape_terms t2.
Proof. unfold scrape_terms. now rewrite scrapes_app, fmap_app. Qed.
Lemma batches_app (t1 t2 : list Event) : batches (t1 ++ t2) = batches t1 ++ batches t2.
Proof. apply omap_app. Qed.
Lemma raised_app (t1 t2 : list Event) : raised (t1 ++ t2) = raised t1 ++ raised t2.
Proof. apply omap_app. Qed.
Lemma writes_app (t1 t2 : list Event) : writes (t1 ++ t2) = writes t1 ++ writes t2.
Proof. apply omap_app. Qed.
Lemma founds_app (t1 t2 : list Event) : founds (t1 ++ t2) = founds t1 ++ founds t2.
Proof. apply omap_app. Qed.

Lemma elem_of_raised (t : list Event) n a e : Scrape n a (Raised e) ∈ t <-> (n, a, e) ∈ raised t.
Proof.
  unfold raised. rewrite list_elem_of_omap. split.
  - intros H. eexists. split; [exact H|reflexivity].
  - intros (ev & Hev & Heq). destruct ev as [| | |? ? []|]; simplify_eq. exact Hev.
Qed.

Lemma elem_of_writes (t : list Event) p f k : ToCsv p f k ∈ t <-> (p, f, k) ∈ writes t.
Proof.
  unfold writes. rewrite list_elem_of_omap. split.
  - intros H. eexists. split; [exact H|reflexivity].
  - intros (ev & Hev & Heq). destruct ev; simplify_eq. exact Hev.
Qed.

Lemma elem_of_scrapes (t : list Event) n a r : Scrape n a r ∈ t <-> (n, a, r) ∈ scrapes t.
Proof.
  unfold scrapes. rewrite list_elem_of_omap. split.
  - intros H. eexists. split; [exact H|reflexivity].
  - intros (ev & Hev & Heq). destruct ev; simplify_eq. exact Hev.
Qed.

Lemma elem_of_founds (t : list Event) n : Stdout (MFound n) ∈ t <-> n ∈ founds t.
Proof.
  unfold founds. rewrite list_elem_of_omap. split.
  - intros H. eexists. split; [exact H|reflexivity].
  - intros (ev & Hev & Heq). destruct ev as [[]| | | |]; simplify_eq. exact Hev.
Qed.

(** *** Sequencing *)

Lemma bind_next {A B} (m : Run A) (f : A -> Run B) t a :
  m = (t, Next a) -> m ≫= f = (t ++ (f a).1, (f a).2).
Proof. intros ->. unfold mbind, run_bind. now destruct (f a). Qed.

Lemma bind_halt {A B} (m : Run A) (f : A -> Run B) t o :
  m = (t, Halt o) -> m ≫= f = (t, Halt o).
Proof. now intros ->. Qed.

Lemma bind_inv {A B} (m : Run A) (f : A -> Run B) t r :
  m ≫= f = (t, r) ->
  (exists t1 a t2, m = (t1, Next a) /\ f a = (t2, r) /\ t = t1 ++ t2)
  \/ (exists o, m = (t, Halt o) /\ r = Halt o).
Proof.
  destruct m as [t1 [a|o]]; unfold mbind, run_bind.
  - destruct (f a) as [t2 r2] eqn:E. intros [= <- <-]. left.
    exists t1, a, t2. auto.
  - intros [= <- <-]. right. exists o. auto.
Qed.

(** *** [flag or int(raw)] *)

Lemma or_int_cases flag raw :
  (exists n, or_int (Row:=Row) flag raw = ([], Next n)
             /\ Some n = from_option Some (PyInt.int raw) (int_flag flag))
  \/ (or_int (Row:=Row) flag raw = ([], Halt (Uncaught (ValueError raw)))
      /\ int_flag flag = None /\ PyInt.int raw = None).
Proof.
  unfold or_int, int_flag.
  destruct flag as [[|p|p]|]; simpl; eauto;
    destruct (PyInt.int raw); simpl; eauto.
Qed.

Lemma body_spec (w : World) args sites st term :
  body_result w args sites st term (body w args sites st term).
Proof.
  unfold body.
  destruct (or_int_cases (results args) (_env w "RESULTS_WANTED" "20"))
    as [(rw & Erw & Hrw)|(Erw & Hf & Hp)]; rewrite Erw; clear Erw;
    [|now apply body_bad_results].
  destruct (or_int_cases (hours_old args) (_env w "HOURS_OLD" "24"))
    as [(ho & Eho & Hho)|(Eho & Hf & Hp)]; rewrite Eho; clear Eho;
    [|now apply (body_bad_hours _ _ _ _ _ rw)].
  pose proof (body_makedirs_failed w args sites st term rw ho) as Hmk.
  pose proof (body_raised w args sites st term rw ho) as Hra.
  pose proof (body_returned w args sites st term rw ho) as Hre.
  unfold before_call, warning, both_flags, kwargs_of, data_dir_of in *.
  unfold os_makedirs, print, eprint, emit, raise, exit_with, mbind, run_bind, mret, run_ret.
  destruct (linkedin_fetch_description args && no_linkedin_fetch_description args);
    cbv beta iota zeta;
    (destruct (makedirs_error w _) as [msg|]; [now apply (Hmk msg)|]);
    cbv beta iota zeta;
    (destruct (scrape_jobs w _ _) as [jobs|e]; [now apply Hre|now apply Hra]).
Qed.

Lemma before_call_silent (w : World) args sites term rw ho :
  let t := before_call w args sites term rw ho in
  scrapes t = [] /\ batches t = [] /\ raised t = [] /\ writes t = [] /\ founds t = [].
Proof. unfold before_call, warning. destruct (both_flags args); repeat split. Qed.

Lemma body_next (w : World) args sites st term t st' :
  body w args sites st term = (t, Next st') ->
  exists rw ho jobs,
    resolved_int (results args) (_env w "RESULTS_WANTED" "20") rw
    /\ resolved_int (hours_old args) (_env w "HOURS_OLD" "24") ho
    /\ scrape_jobs w (calls st) (kwargs_of w args sites term rw ho) = Returned jobs
    /\ t = before_call w args sites term rw ho
           ++ [Scrape (calls st) (kwargs_of w args sites term rw ho) (Returned jobs)]
    /\ st' = {| jobcollected := jobcollected st ++ jobs;
                totaljobcount := totaljobcount st + Z.of_nat (length jobs);
                out_csv := Some (os_path_join (data_dir_of w args) flat_jobs_list);
                calls := S (calls st) |}.
Proof.
  intros E. pose proof (body_spec w args sites st term) as H. rewrite E in H.
  inversion H; subst. exists rw, ho, jobs. auto.
Qed.

Lemma body_halt (w : World) args sites st term t o :
  body w args sites st term = (t, Halt o) ->
  (o = Exit 2
   /\ exists rw ho e,
       resolved_int (results args) (_env w "RESULTS_WANTED" "20") rw
       /\ resolved_int (hours_old args) (_env w "HOURS_OLD" "24") ho
       /\ scrape_jobs w (calls st) (kwargs_of w args sites term rw ho) = Raised e
       /\ t = before_call w args sites term rw ho
              ++ [Scrape (calls st) (kwargs_of w args sites term rw ho) (Raised e);
                  Stderr (MScrapeFailed e)])
  \/ (exists e, o = Uncaught e)
     /\ scrapes t = [] /\ batches t = [] /\ raised t = []
     /\ writes t = [] /\ founds t = []
     /\ (forall ev, ev ∈ t ->
           ev = Stdout (MProcessing term)
           \/ (ev = Stderr MBothFlags /\ both_flags args = true)
           \/ ev = Makedirs (data_dir_of w args)).
Proof.
  intros E. pose proof (body_spec w args sites st term) as H. rewrite E in H.
  inversion H; subst.
  - right. split; [eauto|]. repeat split; try reflexivity.
    intros ev Hev. apply list_elem_of_singleton in Hev. auto.
  - right. split; [eauto|]. repeat split; try reflexivity.
    intros ev Hev. apply list_elem_of_singleton in Hev. auto.
  - right. split; [eauto|]. unfold warning.
    destruct (both_flags args) eqn:Eb; repeat split; try reflexivity;
      intros ev Hev; repeat (apply elem_of_cons in Hev as [->|Hev]; auto);
      now apply elem_of_nil in Hev.
  - left. split; [reflexivity|]. exists rw, ho, e. auto.
Qed.

(** *** The loop *)

Lemma sum_lengths_concat (bs : list (list Row)) : sum_lengths bs = Z.of_nat (length (concat bs)).
Proof.
  induction bs as [|b bs IH]; simpl; [reflexivity|].
  rewrite length_app, IH. lia.
Qed.

Lemma loop_cons (w : World) args sites (st : Locals) term rest :
  loop w args sites st (term :: rest)
  = body w args sites st term ≫= fun st' => loop w args sites st' rest.
Proof. reflexivity. Qed.

(** The loop itself writes nothing and reports nothing. *)
Lemma loop_silent (w : World) args sites terms st t r :
  loop w args sites st terms = (t, r) -> writes t = [] /\ founds t = [].
Proof.
  revert st t r. induction terms as [|term rest IH]; intros st t r.
  - intros [= <- <-]. split; reflexivity.
  - rewrite loop_cons. intros [(t1 & st1 & t2 & E1 & E2 & ->)|(o & E1 & ->)]%bind_inv.
    + apply body_next in E1 as (rw & ho & jobs & _ & _ & _ & -> & _).
      apply IH in E2 as [Hw Hf].
      destruct (before_call_silent w args sites term rw ho) as (_ & _ & _ & Hw1 & Hf1).
      rewrite !writes_app, !founds_app, Hw, Hf, Hw1, Hf1. split; reflexivity.
    + apply body_halt in E1 as [(_ & rw & ho & e & _ & _ & _ & ->)|(_ & _ & _ & _ & Hw & Hf & _)];
        [|auto].
      destruct (before_call_silent w args sites term rw ho) as (_ & _ & _ & Hw1 & Hf1).
      rewrite !writes_app, !founds_app, Hw1, Hf1. split; reflexivity.
Qed.

(** When the loop runs to its end, every term was asked for once, in
    order, every call returned, and the locals hold the batches
    appended in that order together with their row count. *)
Lemma loop_next (w : World) args sites terms st t st' :
  loop w args sites st terms = (t, Next st') ->
  scrape_terms t = terms
  /\ (fun c => c.1.1) <$> scrapes t = seq (calls st) (length terms)
  /\ raised t = []
  /\ length (batches t) = length terms
  /\ jobcollected st' = jobcollected st ++ concat (batches t)
  /\ totaljobcount st' = totaljobcount st + sum_lengths (batches t)
  /\ calls st' = (calls st + length terms)%nat
  /\ out_csv st' = match terms with
                   | [] => out_csv st
                   | _ :: _ => Some (os_path_join (data_dir_of w args) flat_jobs_list)
                   end.
Proof.
  revert st t st'. induction terms as [|term rest IH]; intros st t st'.
  - intros [= <- <-]. simpl. rewrite app_nil_r, Z.add_0_r, Nat.add_0_r. repeat split.
  - rewrite loop_cons. intros [(t1 & st1 & t2 & E1 & E2 & ->)|(o & _ & [=])]%bind_inv.
    apply body_next in E1 as (rw & ho & jobs & _ & _ & _ & -> & ->).
    apply IH in E2 as (Ht & Hi & Hr & Hl & Hj & Hc & Hn & Ho).
    simpl in Ht, Hi, Hr, Hl, Hj, Hc, Hn, Ho.
    destruct (before_call_silent w args sites term rw ho) as (Hs1 & Hb1 & Hr1 & _ & _).
    set (bc := before_call w args sites term rw ho) in *. clearbody bc.
    unfold scrape_terms in *.
    rewrite !scrapes_app, !batches_app, !raised_app, Hs1, Hb1, Hr1, Hr.
    simpl. change (list_fmap ?A ?B ?f ?l) with (f <$> l).
    rewrite Ht, Hi, Hl, Hj, Hc, Hn.
    repeat split; try lia; try (f_equal; lia).
    + now rewrite <- app_assoc.
    + destruct rest; exact Ho.
Qed.

(** When the loop stops early, either the provider raised on the call
    just made, which is the last event but one and the only raise, and
    the return code is 2; or an exception escaped and no call raised. *)
Lemma loop_halt (w : World) args sites terms st t o :
  loop w args sites st terms = (t, Halt o) ->
  (o = Exit 2
   /\ exists pre n a e,
       t = pre ++ [Scrape n a (Raised e); Stderr (MScrapeFailed e)]
       /\ raised pre = []
       /\ n = (calls st + length (scrapes pre))%nat
       /\ scrape_terms t = take (S (length (scrapes pre))) terms
       /\ (length (scrapes pre) < length terms)%nat)
  \/ ((exists e, o = Uncaught e) /\ raised t = []).
Proof.
  revert st t. induction terms as [|term rest IH]; intros st t; [intros [=]|].
  rewrite loop_cons. intros [(t1 & st1 & t2 & E1 & E2 & ->)|(o' & E1 & [= <-])]%bind_inv.
  - apply body_next in E1 as (rw & ho & jobs & _ & _ & _ & -> & ->).
    destruct (before_call_silent w args sites term rw ho) as (Hs1 & Hb1 & Hr1 & _ & _).
    set (bc := before_call w args sites term rw ho) in *. clearbody bc.
    apply IH in E2 as [(-> & pre & n & a & e & -> & Hr & Hn & Ht & Hlt)|(He & Hr)];
      simpl in Hr; try simpl in Hn.
    + left. split; [reflexivity|].
      exists ((bc
               ++ [Scrape (calls st) (kwargs_of w args sites term rw ho) (Returned jobs)])
              ++ pre), n, a, e.
      split; [now rewrite <- !app_assoc|].
      rewrite !raised_app, !scrapes_app, Hr1, Hs1, Hr. simpl.
      split; [reflexivity|]. split; [lia|]. split; [|lia].
      rewrite !scrape_terms_app. rewrite !scrape_terms_app in Ht. rewrite Ht.
      unfold scrape_terms at 1 2. rewrite Hs1. reflexivity.
    + right. split; [exact He|]. rewrite !raised_app, Hr1, Hr. reflexivity.
  - apply body_halt in E1 as [(-> & rw & ho & e & _ & _ & _ & ->)|(He & Hs & _ & Hr & _)].
    + destruct (before_call_silent w args sites term rw ho) as (Hs1 & Hb1 & Hr1 & _ & _).
      set (bc := before_call w args sites term rw ho) in *. clearbody bc.
      left. split; [reflexivity|].
      eexists _, _, _, e. split; [reflexivity|]. rewrite Hs1, Hr1. simpl.
      split; [reflexivity|]. split; [lia|]. split; [|lia].
      rewrite scrape_terms_app. unfold scrape_terms at 1. rewrite Hs1. simpl.
      now rewrite take_0.
    + right. auto.
Qed.

Lemma before_call_events (w : World) args sites term rw ho ev :
  ev ∈ before_call w args sites term rw ho -> loop_event w args sites ev.
Proof.
  unfold before_call, warning, loop_event. intros Hev.
  destruct (both_flags args) eqn:Eb;
    repeat (apply elem_of_cons in Hev as [->|Hev]); try (now apply elem_of_nil in Hev);
    eauto 10.
Qed.

Lemma before_call_warning (w : World) args sites term rw ho :
  both_flags args = true -> Stderr MBothFlags ∈ before_call w args sites term rw ho.
Proof.
  unfold before_call, warning. intros ->. apply list_elem_of_further, list_elem_of_here.
Qed.

Lemma body_events (w : World) args sites st term t r ev :
  body w args sites st term = (t, r) -> ev ∈ t -> loop_event w args sites ev.
Proof.
  intros E Hev. destruct r as [st'|o].
  - apply body_next in E as (rw & ho & jobs & Hrw & Hho & Hsc & -> & _).
    apply elem_of_app in Hev as [Hev|Hev]; [exact (before_call_events _ _ _ _ _ _ _ Hev)|].
    apply list_elem_of_singleton in Hev as ->. rewrite <- Hsc.
    unfold loop_event. do 4 right. left. exists (calls st), term, rw, ho. auto.
  - apply body_halt in E as [(_ & rw & ho & e & Hrw & Hho & Hsc & ->)|(_ & _ & _ & _ & _ & _ & H)].
    + apply elem_of_app in Hev as [Hev|Hev]; [exact (before_call_events _ _ _ _ _ _ _ Hev)|].
      apply elem_of_cons in Hev as [->|Hev].
      * rewrite <- Hsc. unfold loop_event. do 4 right. left.
        exists (calls st), term, rw, ho. auto.
      * apply list_elem_of_singleton in Hev as ->. unfold loop_event. do 5 right. eauto.
    + unfold loop_event. destruct (H ev Hev) as [->|[[-> Hb]| ->]]; eauto 10.
Qed.

Lemma loop_events (w : World) args sites terms st t r ev :
  loop w args sites st terms = (t, r) -> ev ∈ t -> loop_event w args sites ev.
Proof.
  revert st t r. induction terms as [|term rest IH]; intros st t r.
  - intros [= <- <-] Hev. now apply elem_of_nil in Hev.
  - rewrite loop_cons. intros [(t1 & st1 & t2 & E1 & E2 & ->)|(o & E1 & ->)]%bind_inv Hev.
    + apply elem_of_app in Hev as [Hev|Hev]; [eapply body_events|eapply IH]; eauto.
    + eapply body_events; eauto.
Qed.

(** With both flags set, a trace of the loop that reaches a provider
    call carries the warning. *)
Lemma loop_warning (w : World) args sites terms st t r :
  loop w args sites st terms = (t, r) ->
  scrapes t <> [] -> both_flags args = true -> Stderr MBothFlags ∈ t.
Proof.
  destruct terms as [|term rest]; [intros [= <- <-] H; now destruct H|].
  rewrite loop_cons. intros [(t1 & st1 & t2 & E1 & E2 & ->)|(o & E1 & ->)]%bind_inv Hs Hb.
  - apply body_next in E1 as (rw & ho & jobs & _ & _ & _ & -> & _).
    rewrite <- app_assoc. apply elem_of_app. left. now apply before_call_warning.
  - apply body_halt in E1 as [(_ & rw & ho & e & _ & _ & _ & ->)|(_ & Hs' & _)];
      [|congruence].
    apply elem_of_app. left. now apply before_call_warning.
Qed.

(** The loop runs to its end when the integers resolve, the directory
    can be made and the provider never raises. *)
Lemma loop_completes (w : World) args sites terms st :
  (exists rw, resolved_int (results args) (_env w "RESULTS_WANTED" "20") rw) ->
  (exists ho, resolved_int (hours_old args) (_env w "HOURS_OLD" "24") ho) ->
  makedirs_error w (data_dir_of w args) = None ->
  (forall n a e, scrape_jobs w n a <> Raised e) ->
  exists t st', loop w args sites st terms = (t, Next st').
Proof.
  intros [rw Hrw] [ho Hho] Hmk Hsc. revert st.
  induction terms as [|term rest IH]; intros st; [exists [], st; reflexivity|].
  rewrite loop_cons. destruct (body w args sites st term) as [t1 r1] eqn:E.
  pose proof (body_spec w args sites st term) as H. rewrite E in H.
  unfold resolved_int in *.
  inversion H as [Hf Hi|rw' _ Hf Hi|rw' ho' msg _ _ Hm|rw' ho' e _ _ _ He
                  |rw' ho' jobs _ _ _ Hj]; subst.
  - rewrite Hf, Hi in Hrw. discriminate.
  - rewrite Hf, Hi in Hho. discriminate.
  - congruence.
  - now apply Hsc in He.
  - destruct (IH {| jobcollected := jobcollected st ++ jobs;
                    totaljobcount := totaljobcount st + Z.of_nat (length jobs);
                    out_csv := Some (os_path_join (data_dir_of w args) flat_jobs_list);
                    calls := S (calls st) |}) as (t2 & st2 & E2).
    eexists _, st2. unfold mbind, run_bind. rewrite E2. reflexivity.
Qed.

(** Nothing changes between two passes, so a pass can die of an
    exception only if the first one does: once the integers resolve and
    the directory can be made, the loop ends normally or on a provider
    failure. *)
Lemma loop_no_crash (w : World) args sites terms st t e :
  (exists rw, resolved_int (results args) (_env w "RESULTS_WANTED" "20") rw) ->
  (exists ho, resolved_int (hours_old args) (_env w "HOURS_OLD" "24") ho) ->
  makedirs_error w (data_dir_of w args) = None ->
  loop w args sites st terms <> (t, Halt (Uncaught e)).
Proof.
  intros [rw Hrw] [ho Hho] Hmk. revert st t.
  induction terms as [|term rest IH]; intros st t; [discriminate|].
  rewrite loop_cons. intros [(t1 & st1 & t2 & _ & E2 & _)|(o & E1 & Ho)]%bind_inv.
  - exact (IH _ _ E2).
  - pose proof (body_spec w args sites st term) as H. rewrite E1 in H.
    unfold resolved_int in *.
    inversion H as [Hf Hi|rw' _ Hf Hi|rw' ho' msg _ _ Hm|rw' ho' e' _ _ _ He
                    |rw' ho' jobs _ _ _ Hj]; subst; try discriminate.
    + rewrite Hf, Hi in Hrw. discriminate.
    + rewrite Hf, Hi in Hho. discriminate.
    + congruence.
Qed.

Lemma body_next_makedirs (w : World) args sites st term t st' :
  body w args sites st term = (t, Next st') ->
  makedirs_error w (data_dir_of w args) = None.
Proof.
  intros E. pose proof (body_spec w args sites st term) as H. rewrite E in H.
  now inversion H.
Qed.

(** A loop that died of an exception never reached the provider. *)
Lemma loop_uncaught_no_call (w : World) args sites terms st t e :
  loop w args sites st terms = (t, Halt (Uncaught e)) -> scrapes t = [].
Proof.
  destruct terms as [|term rest]; [discriminate|].
  rewrite loop_cons. intros [(t1 & st1 & t2 & E1 & E2 & ->)|(o & E1 & [= <-])]%bind_inv.
  - exfalso. pose proof (body_next_makedirs _ _ _ _ _ _ _ E1) as Hmk.
    apply body_next in E1 as (rw & ho & jobs & Hrw & Hho & _).
    eapply loop_no_crash; eauto.
  - apply body_halt in E1 as [([=] & _)|(_ & Hs & _)]. exact Hs.
Qed.

(** *** After the loop, and before [main] *)

Lemma write_cases (w : World) (st : Locals) :
  (out_csv st = None
   /\ write w st = ([Stderr (MWriteFailed (UnboundLocal "out_csv"))], Next 3))
  \/ (exists path msg, out_csv st = Some path /\ to_csv_error w path = Some msg
        /\ write w st = ([ToCsv path (jobcollected st) to_csv_kwargs;
                          Stderr (MWriteFailed (WriteError msg))], Next 3))
  \/ (exists path, out_csv st = Some path /\ to_csv_error w path = None
        /\ write w st = ([ToCsv path (jobcollected st) to_csv_kwargs; Stdout (MWrote path)],
                         Next 0)).
Proof.
  unfold write. destruct (out_csv st) as [path|]; [|left; auto].
  right. destruct (to_csv_error w path) as [msg|] eqn:E; [left|right]; eauto.
Qed.

(** [main] either stops inside the loop, or reports the total and goes
    on to write. *)
Lemma main_cases (w : World) args t r :
  main w args = (t, r) ->
  (exists o, r = Halt o
     /\ loop w args (site_name_of w args) initial (search_terms_of w args) = (t, Halt o))
  \/ (exists tl st tw c,
        loop w args (site_name_of w args) initial (search_terms_of w args) = (tl, Next st)
        /\ write w st = (tw, Next c)
        /\ t = tl ++ Stdout (MFound (totaljobcount st)) :: tw
        /\ r = Next c).
Proof.
  unfold main. intros [(tl & st & t2 & E1 & E2 & ->)|(o & E1 & ->)]%bind_inv.
  - right. unfold print, emit, mbind, run_bind in E2.
    destruct (write w st) as [tw rw] eqn:Ew. injection E2 as <- <-.
    destruct (write_cases w st) as [(_ & E)|[(? & ? & _ & _ & E)|(? & _ & _ & E)]];
      rewrite E in Ew; injection Ew as <- <-; eexists _, _, _, _; eauto.
  - left. eauto.
Qed.

(** The three ways through the module: no [DATA_DIR] in the
    environment, the file is there already, or [main] runs. *)
Lemma collector_cases (w : World) args t o :
  collector w args = (t, o) ->
  (environ w !! "DATA_DIR" = None
   /\ t = [Stdout MStarting] /\ o = Uncaught (KeyError "DATA_DIR"))
  \/ (exists d, environ w !! "DATA_DIR" = Some d
        /\ path_exists w (os_path_join d flat_jobs_list) = true
        /\ t = [Stdout MStarting; Stdout (MAlreadyExists (os_path_join d flat_jobs_list));
                Stdout MExitingNormally]
        /\ o = Exit 0)
  \/ (exists d tm r, environ w !! "DATA_DIR" = Some d
        /\ path_exists w (os_path_join d flat_jobs_list) = false
        /\ main w args = (tm, r)
        /\ t = Stdout MStarting :: tm /\ o = finish r).
Proof.
  unfold collector, module, environ_getitem.
  unfold print, emit, exit_with, raise, mbind, run_bind, mret, run_ret. intros H.
  destruct (environ w !! "DATA_DIR") as [d|]; [|injection H as <- <-; left; auto].
  right. destruct (path_exists w (os_path_join d flat_jobs_list)) eqn:Ex.
  - injection H as <- <-. left. exists d. auto.
  - right. destruct (main w args) as [tm r] eqn:Em.
    exists d, tm, r. destruct r; injection H as <- <-; auto.
Qed.

(** Past the guard the process is [main]. *)
Lemma guard_passed (w : World) args d :
  environ w !! "DATA_DIR" = Some d ->
  path_exists w (os_path_join d flat_jobs_list) = false ->
  collector w args = (Stdout MStarting :: (main w args).1, finish (main w args).2).
Proof.
  intros Hd He. unfold collector, module, environ_getitem. rewrite Hd.
  unfold print, emit, exit_with, raise, mbind, run_bind, mret, run_ret.
  rewrite He. destruct (main w args) as [tm [c|o]]; reflexivity.
Qed.

(** *** The first pass reaches the provider *)

Lemma bind_trace {A B} (m : Run A) (f : A -> Run B) :
  exists t2, (m ≫= f).1 = m.1 ++ t2.
Proof.
  destruct m as [t [a|o]]; unfold mbind, run_bind; simpl.
  - destruct (f a) as [t2 r]. now exists t2.
  - exists []. now rewrite app_nil_r.
Qed.

Lemma resolved_int_unique flag raw n m :
  resolved_int flag raw n -> resolved_int flag raw m -> n = m.
Proof. unfold resolved_int. congruence. Qed.

(** With integers that resolve and a directory that can be made, the
    first pass calls the provider, with the keyword arguments resolved
    for its term, and every later call is listed after it. *)
Lemma loop_first_call (w : World) args sites st term rest rw ho :
  resolved_int (results args) (_env w "RESULTS_WANTED" "20") rw ->
  resolved_int (hours_old args) (_env w "HOURS_OLD" "24") ho ->
  makedirs_error w (data_dir_of w args) = None ->
  exists tl,
    scrapes (loop w args sites st (term :: rest)).1
    = (calls st, kwargs_of w args sites term rw ho,
       scrape_jobs w (calls st) (kwargs_of w args sites term rw ho)) :: tl.
Proof.
  intros Hrw Hho Hmk. rewrite loop_cons.
  destruct (bind_trace (body w args sites st term)
              (fun st' => loop w args sites st' rest)) as [t2 ->].
  rewrite scrapes_app.
  pose proof (body_spec w args sites st term) as H.
  destruct (body w args sites st term) as [tb rb]. simpl.
  inversion H as [Hf Hi|rw' Hrw' Hf Hi|rw' ho' msg Hrw' Hho' Hm|rw' ho' e Hrw' Hho' _ He
                  |rw' ho' jobs Hrw' Hho' _ Hj]; subst.
  - exfalso. unfold resolved_int in Hrw. rewrite Hf, Hi in Hrw. discriminate.
  - exfalso. unfold resolved_int in Hho. rewrite Hf, Hi in Hho. discriminate.
  - congruence.
  - rewrite (resolved_int_unique _ _ _ _ Hrw' Hrw), (resolved_int_unique _ _ _ _ Hho' Hho) in *.
    destruct (before_call_silent w args sites term rw ho) as (Hs1 & _).
    change (Stdout (MProcessing term) :: (warning args ++ ?l) ++ ?x)
      with (before_call w args sites term rw ho ++ x).
    rewrite scrapes_app, Hs1, He. simpl. eauto.
  - rewrite (resolved_int_unique _ _ _ _ Hrw' Hrw), (resolved_int_unique _ _ _ _ Hho' Hho) in *.
    destruct (before_call_silent w args sites term rw ho) as (Hs1 & _).
    change (Stdout (MProcessing term) :: (warning args ++ ?l) ++ ?x)
      with (before_call w args sites term rw ho ++ x).
    rewrite scrapes_app, Hs1, Hj. simpl. eauto.
Qed.

Lemma first_call (w : World) args d term rest rw ho :
  environ w !! "DATA_DIR" = Some d ->
  path_exists w (os_path_join d flat_jobs_list) = false ->
  search_terms_of w args = term :: rest ->
  resolved_int (results args) (_env w "RESULTS_WANTED" "20") rw ->
  resolved_int (hours_old args) (_env w "HOURS_OLD" "24") ho ->
  makedirs_error w (data_dir_of w args) = None ->
  exists tl,
    scrapes (collector w args).1
    = (0%nat, kwargs_of w args (site_name_of w args) term rw ho,
       scrape_jobs w 0 (kwargs_of w args (site_name_of w args) term rw ho)) :: tl.
Proof.
  intros Hd He Ht Hrw Hho Hmk. rewrite (guard_passed w args d Hd He). simpl.
  change (scrapes (Stdout MStarting :: (main w args).1)) with (scrapes (main w args).1).
  unfold main. rewrite Ht.
  destruct (bind_trace (loop w args (site_name_of w args) initial (term :: rest))
              (fun st => print (MFound (totaljobcount st));; write w st)) as [t2 ->].
  rewrite scrapes_app.
  destruct (loop_first_call w args (site_name_of w args) initial term rest rw ho
              Hrw Hho Hmk) as [tl ->].
  simpl. eauto.
Qed.

End Traces.

(** * The collector's contract *)

Section Contract.

Context {Row : Type}.
Abbreviation World' := (@World Row).

(** Closes a goal from membership in an explicit list that holds
    nothing of the kind. *)
Ltac not_among H :=
  repeat (apply elem_of_cons in H as [H|H]; [discriminate|]);
  now apply elem_of_nil in H.

Lemma write_no_raise (w : World') st tw c n a e :
  write w st = (tw, c) -> Scrape n a (Raised e) ∉ tw.
Proof.
  intros Hw Hin.
  destruct (write_cases w st) as [(_ & E)|[(? & ? & _ & _ & E)|(? & _ & _ & E)]];
    rewrite E in Hw; injection Hw as <- <-; not_among Hin.
Qed.

(** C1.  Whenever a provider call raises, the run ends there: the call
    is followed only by the message on the error stream, the provider
    was asked for exactly the terms up to and including the failing one,
    nothing is written and no total is reported, and the exit code is 2. *)
Theorem scrape_failure_aborts (w : World') args t o n a e :
  collector w args = (t, o) ->
  Scrape n a (Raised e) ∈ t ->
  o = Exit 2
  /\ (exists pre, t = pre ++ [Scrape n a (Raised e); Stderr (MScrapeFailed e)]
                  /\ raised pre = [] /\ length (scrapes pre) = n)
  /\ scrape_terms t = take (S n) (search_terms_of w args)
  /\ (n < length (search_terms_of w args))%nat
  /\ writes t = [] /\ founds t = [].
Proof.
  intros Hc Hin.
  apply collector_cases in Hc
    as [(_ & -> & _)|[(d & _ & _ & -> & _)|(d & tm & r & _ & _ & Hm & -> & ->)]].
  - not_among Hin.
  - not_among Hin.
  - apply elem_of_cons in Hin as [Hin|Hin]; [discriminate|].
    apply main_cases in Hm as [(o & -> & Hl)|(tl & st & tw & c & Hl & Hw & -> & ->)].
    + destruct (loop_silent _ _ _ _ _ _ _ Hl) as [Hws Hfs].
      apply loop_halt in Hl as [(-> & pre & n' & a' & e' & -> & Hr & Hn & Ht & Hlt)|(_ & Hr)].
      * apply elem_of_raised in Hin. rewrite raised_app, Hr in Hin.
        apply list_elem_of_singleton in Hin. injection Hin as -> -> ->.
        simpl in Hn. subst n'.
        split; [reflexivity|]. split.
        { exists (Stdout MStarting :: pre). repeat split; auto. }
        repeat split; auto.
      * apply elem_of_raised in Hin. rewrite Hr in Hin. now apply elem_of_nil in Hin.
    + exfalso. apply loop_next in Hl as (_ & _ & Hr & _).
      apply elem_of_app in Hin as [Hin|Hin].
      * apply elem_of_raised in Hin. rewrite Hr in Hin. now apply elem_of_nil in Hin.
      * apply elem_of_cons in Hin as [Hin|Hin]; [discriminate|].
        exact (write_no_raise _ _ _ _ _ _ _ Hw Hin).
Qed.

(** The writer calls nobody but [to_csv]: not at all when [out_csv] is
    unbound, and otherwise once, with the locals of the loop, whether the
    call returns or raises. *)
Lemma write_obs (w : World') st tw r :
  write w st = (tw, r) ->
  scrapes tw = [] /\ batches tw = [] /\ raised tw = [] /\ founds tw = []
  /\ ((out_csv st = None /\ writes tw = [] /\ r = Next 3)
      \/ (exists path, out_csv st = Some path
            /\ writes tw = [(path, jobcollected st, to_csv_kwargs)]
            /\ r = Next (match to_csv_error w path with Some _ => 3 | None => 0 end))).
Proof.
  intros Hw.
  destruct (write_cases w st) as [(Ho & E)|[(path & msg & Ho & Hc & E)|(path & Ho & Hc & E)]];
    rewrite E in Hw; injection Hw as <- <-; repeat split; auto;
    right; exists path; rewrite Hc; auto.
Qed.

(** Past the guard, with integers that resolve, a directory that can be
    made and a provider that never raises, the run reports a total. *)
Lemma all_succeed_reports_total (w : World') args d :
  environ w !! "DATA_DIR" = Some d ->
  path_exists w (os_path_join d flat_jobs_list) = false ->
  (exists rw, resolved_int (results args) (_env w "RESULTS_WANTED" "20") rw) ->
  (exists ho, resolved_int (hours_old args) (_env w "HOURS_OLD" "24") ho) ->
  makedirs_error w (data_dir_of w args) = None ->
  (forall n a e, scrape_jobs w n a <> Raised e) ->
  exists total, Stdout (MFound total) ∈ (collector w args).1.
Proof.
  intros Hd He Hrw Hho Hmk Hsc.
  destruct (loop_completes w args (site_name_of w args) (search_terms_of w args)
              initial Hrw Hho Hmk Hsc) as (tl & st & El).
  exists (totaljobcount st).
  unfold collector, module, environ_getitem, main. rewrite Hd.
  unfold print, emit, exit_with, raise, mbind, run_bind, mret, run_ret.
  rewrite He, El. destruct (write w st) as [tw [c|o]]; simpl;
    apply list_elem_of_further, elem_of_app; right; apply list_elem_of_here.
Qed.

Lemma completed_obs (tl tw : list (@Event Row)) total :
  let t := Stdout MStarting :: tl ++ Stdout (MFound total) :: tw in
  scrapes t = scrapes tl ++ scrapes tw
  /\ batches t = batches tl ++ batches tw
  /\ raised t = raised tl ++ raised tw
  /\ founds t = founds tl ++ total :: founds tw
  /\ writes t = writes tl ++ writes tw.
Proof.
  intros t.
  change t with ([Stdout MStarting] ++ tl ++ [Stdout (MFound total)] ++ tw).
  rewrite !scrapes_app, !batches_app, !raised_app, !founds_app, !writes_app.
  repeat split.
Qed.

(** A run in which no provider call raised, and which got as far as a
    provider call or the report of the total, went through the whole loop
    and on to the writer. *)
Lemma succeeded_run (w : World') args t o :
  collector w args = (t, o) ->
  raised t = [] ->
  scrapes t <> [] \/ founds t <> [] ->
  exists tl st tw c,
    loop w args (site_name_of w args) initial (search_terms_of w args) = (tl, Next st)
    /\ write w st = (tw, Next c)
    /\ t = Stdout MStarting :: tl ++ Stdout (MFound (totaljobcount st)) :: tw
    /\ o = Exit c.
Proof.
  intros Hc Hr Hne.
  apply collector_cases in Hc
    as [(_ & -> & _)|[(d & _ & _ & -> & _)|(d & tm & r & _ & _ & Hm & -> & ->)]].
  - destruct Hne as [H|H]; now destruct H.
  - destruct Hne as [H|H]; now destruct H.
  - apply main_cases in Hm as [(o & -> & Hl)|(tl & st & tw & c & Hl & Hw & -> & ->)].
    + exfalso.
      change (raised (Stdout MStarting :: tm)) with (raised tm) in Hr.
      change (scrapes (Stdout MStarting :: tm)) with (scrapes tm) in Hne.
      change (founds (Stdout MStarting :: tm)) with (founds tm) in Hne.
      destruct (loop_silent _ _ _ _ _ _ _ Hl) as [_ Hfs].
      destruct o as [c|e].
      * apply loop_halt in Hl as [(_ & pre & n & a & e & -> & _)|([e [=]] & _)].
        rewrite raised_app in Hr. now apply app_eq_nil in Hr as [_ [=]].
      * apply loop_uncaught_no_call in Hl. rewrite Hl, Hfs in Hne.
        destruct Hne as [H|H]; now destruct H.
    + exists tl, st, tw, c. auto.
Qed.

(** C2.  In a run in which no provider call raised, and which got as far
    as a provider call or the report of the total, the provider was asked
    once for every term, in order, and the loop ran to its end; the
    dataset it built, [jobcollected], is the batches laid end to end in
    that order, and [totaljobcount] is the sum of the batch lengths, which
    is the number of rows of that dataset; this total is the one reported;
    and, once there was a term, [to_csv] is called once, under the resolved
    directory, on exactly that dataset. *)
Theorem aggregation (w : World') args t o :
  collector w args = (t, o) ->
  raised t = [] ->
  scrapes t <> [] \/ founds t <> [] ->
  scrape_terms t = search_terms_of w args
  /\ (fun c => c.1.1) <$> scrapes t = seq 0 (length (search_terms_of w args))
  /\ length (batches t) = length (search_terms_of w args)
  /\ founds t = [sum_lengths (batches t)]
  /\ sum_lengths (batches t) = Z.of_nat (length (concat (batches t)))
  /\ (forall p f k, ToCsv p f k ∈ t -> f = concat (batches t))
  /\ (exists tl st,
        loop w args (site_name_of w args) initial (search_terms_of w args) = (tl, Next st)
        /\ jobcollected st = concat (batches t)
        /\ totaljobcount st = sum_lengths (batches t)
        /\ Z.of_nat (length (jobcollected st)) = totaljobcount st)
  /\ writes t
     = match search_terms_of w args with
       | [] => []
       | _ :: _ => [(os_path_join (data_dir_of w args) flat_jobs_list,
                     concat (batches t), to_csv_kwargs)]
       end.
Proof.
  intros Hc Hra0 Hne.
  destruct (succeeded_run w args t o Hc Hra0 Hne) as (tl & st & tw & c & Hl & Hw & -> & ->).
  pose proof (loop_silent _ _ _ _ _ _ _ Hl) as [Hws Hfs].
  pose proof (loop_next _ _ _ _ _ _ _ Hl) as (Ht & Hi & Hr & Hlen & Hj & Htot & _ & Ho).
  apply write_obs in Hw as (Hs2 & Hb2 & Hr2 & Hf2 & Hw2).
  simpl in Hj, Htot, Ho.
  destruct (completed_obs tl tw (totaljobcount st)) as (Hsc & Hb & _ & Hf & Hwr).
  rewrite Hs2, app_nil_r in Hsc. rewrite Hb2, app_nil_r in Hb.
  rewrite Hfs, Hf2 in Hf. rewrite Hws in Hwr.
  rewrite ?app_nil_l in Hf, Hwr.
  unfold scrape_terms in *. rewrite Hb, Hf, Hsc, Hwr, <- sum_lengths_concat.
  refine (conj Ht (conj Hi (conj Hlen (conj _ (conj eq_refl (conj _ (conj _ _))))))).
  - now rewrite Htot.
  - intros p f k Hp. apply elem_of_writes in Hp. rewrite Hwr in Hp.
    destruct Hw2 as [(_ & E & _)|(path & _ & E & _)]; rewrite E in Hp.
    + now apply elem_of_nil in Hp.
    + apply list_elem_of_singleton in Hp. injection Hp as -> -> ->. exact Hj.
  - exists tl, st. split; [exact Hl|]. split; [exact Hj|]. split; [exact Htot|].
    rewrite Hj, Htot. symmetry. apply sum_lengths_concat.
  - destruct Hw2 as [(Hn & E & _)|(path & Hp & E & _)]; rewrite E.
    + rewrite Hn in Ho. destruct (search_terms_of w args); [reflexivity|discriminate].
    + rewrite Hp in Ho. destruct (search_terms_of w args); [discriminate|].
      injection Ho as ->. now rewrite Hj.
Qed.

(** *** Configuration *)

Lemma main_events (w : World') args t r ev :
  main w args = (t, r) -> ev ∈ t ->
  loop_event w args (site_name_of w args) ev \/ outer_event ev.
Proof.
  intros [(o & -> & Hl)|(tl & st & tw & c & Hl & Hw & -> & ->)]%main_cases Hev.
  - left. eapply loop_events; eauto.
  - apply elem_of_app in Hev as [Hev|Hev]; [left; eapply loop_events; eauto|].
    right. apply elem_of_cons in Hev as [->|Hev]; [exact I|].
    destruct (write_cases w st) as [(_ & E)|[(? & ? & _ & _ & E)|(? & _ & _ & E)]];
      rewrite E in Hw; injection Hw as <- <-;
      repeat (apply elem_of_cons in Hev as [->|Hev]; [exact I|]);
      now apply elem_of_nil in Hev.
Qed.

(** Every provider call of [main] carries the resolved keyword
    arguments, whichever term it is for. *)
Lemma main_scrape (w : World') args t r n a res :
  main w args = (t, r) -> Scrape n a res ∈ t ->
  exists term rw ho,
    resolved_int (results args) (_env w "RESULTS_WANTED" "20") rw
    /\ resolved_int (hours_old args) (_env w "HOURS_OLD" "24") ho
    /\ a = kwargs_of w args (site_name_of w args) term rw ho
    /\ res = scrape_jobs w n a.
Proof.
  intros Hm Hin.
  destruct (main_events w args t r _ Hm Hin) as [Hl|[]].
  destruct Hl as [(? & [=])|[([=] & _)|[[=]|[(? & ? & ? & [=])|[H|(? & [=])]]]]].
  destruct H as (n' & term & rw & ho & Hrw & Hho & [= -> -> ->]).
  exists term, rw, ho. auto.
Qed.

(** The same of the whole process. *)
Lemma collector_scrape (w : World') args n a res :
  Scrape n a res ∈ (collector w args).1 ->
  exists term rw ho,
    resolved_int (results args) (_env w "RESULTS_WANTED" "20") rw
    /\ resolved_int (hours_old args) (_env w "HOURS_OLD" "24") ho
    /\ a = kwargs_of w args (site_name_of w args) term rw ho
    /\ res = scrape_jobs w n a.
Proof.
  destruct (collector w args) as [t o] eqn:Hc. simpl. intros Hin.
  apply collector_cases in Hc
    as [(_ & -> & _)|[(d & _ & _ & -> & _)|(d & tm & r & _ & _ & Hm & -> & _)]].
  - not_among Hin.
  - not_among Hin.
  - apply elem_of_cons in Hin as [[=]|Hin]. eapply main_scrape; eauto.
Qed.

Lemma main_makedirs (w : World') args t r p :
  main w args = (t, r) -> Makedirs p ∈ t -> p = data_dir_of w args.
Proof.
  intros Hm Hin.
  destruct (main_events w args t r _ Hm Hin) as [Hl|[]].
  destruct Hl as [(? & [=])|[([=] & _)|[[= ->]|[(? & ? & ? & [=])|[H|(? & [=])]]]]];
    [reflexivity|].
  now destruct H as (? & ? & ? & ? & _ & _ & [=]).
Qed.

Lemma main_warning (w : World') args t r :
  main w args = (t, r) ->
  (Stderr MBothFlags ∈ t -> both_flags args = true)
  /\ (scrapes t <> [] -> both_flags args = true -> Stderr MBothFlags ∈ t).
Proof.
  intros Hm. split.
  - intros Hin. destruct (main_events w args t r _ Hm Hin) as [Hl|[]].
    destruct Hl as [(? & [=])|[(_ & H)|[[=]|[(? & ? & ? & [=])|[H|(? & [=])]]]]];
      [exact H|].
    now destruct H as (? & ? & ? & ? & _ & _ & [=]).
  - intros Hs Hb.
    apply main_cases in Hm as [(o & -> & Hl)|(tl & st & tw & c & Hl & Hw & -> & ->)].
    + eapply loop_warning; eauto.
    + apply elem_of_app. left. eapply loop_warning; eauto.
      apply write_obs in Hw as (Hs2 & _).
      change (tl ++ Stdout (MFound (totaljobcount st)) :: tw)
        with (tl ++ [Stdout (MFound (totaljobcount st))] ++ tw) in Hs.
      rewrite !scrapes_app, Hs2 in Hs. simpl in Hs. now rewrite app_nil_r in Hs.
Qed.

(** C4.  In every provider call [linkedin_fetch_description] is false
    when the disable flag is set, with a warning on the error stream when
    the enable flag is set as well; true when only the enable flag is set;
    and with neither flag it follows [LINKEDIN_FETCH_DESCRIPTION]: true
    when the variable is absent, and otherwise true exactly when its
    value, trimmed and lower-cased, is one of 1, true, yes, y.  The
    warning appears only when both flags are set. *)
Theorem linkedin_fetch_description_resolved (w : World') args t r n a res :
  main w args = (t, r) ->
  Scrape n a res ∈ t ->
  let enable := linkedin_fetch_description args in
  let disable := no_linkedin_fetch_description args in
  let raw := environ w !! "LINKEDIN_FETCH_DESCRIPTION" in
  let v := kw_linkedin_fetch_description a in
  (enable = true -> disable = true -> v = false /\ Stderr MBothFlags ∈ t)
  /\ (disable = true -> v = false)
  /\ (enable = true -> disable = false -> v = true)
  /\ (enable = false -> disable = false -> raw = None -> v = true)
  /\ (enable = false -> disable = false -> forall s, raw = Some s ->
        v = bool_decide (Str.lower (Str.strip s) ∈ tokens_true))
  /\ (Stderr MBothFlags ∈ t -> enable = true /\ disable = true).
Proof.
  intros Hm Hin. cbv zeta.
  destruct (main_scrape w args t r n a res Hm Hin) as (term & rw & ho & _ & _ & -> & _).
  destruct (main_warning w args t r Hm) as [Hw1 Hw2].
  assert (Hs : scrapes t <> []).
  { apply elem_of_scrapes in Hin. intros E. rewrite E in Hin.
    now apply elem_of_nil in Hin. }
  unfold both_flags in *. simpl. unfold _env_bool.
  refine (conj _ (conj _ (conj _ (conj _ (conj _ _))))).
  - intros E1 E2. split; [now rewrite E2|].
    apply Hw2; [exact Hs|]. now rewrite E1, E2.
  - now intros ->.
  - now intros -> ->.
  - now intros -> -> ->.
  - intros -> -> s ->. reflexivity.
  - intros H. apply Hw1 in H. now apply andb_true_iff in H.
Qed.

Lemma or_str_precedence (w : World') flag key d :
  or_str flag (_env w key d) = precedence (str_flag flag) (environ w !! key) d.
Proof.
  unfold or_str, _env, precedence, str_flag.
  destruct flag as [s|]; [destruct (Str.truthy s)|]; destruct (environ w !! key); reflexivity.
Qed.

Lemma resolved_int_precedence (w : World') flag key d dn n :
  PyInt.int d = Some dn ->
  resolved_int flag (_env w key d) n ->
  Some n = precedence (Some <$> int_flag flag) (PyInt.int <$> environ w !! key) (Some dn).
Proof.
  unfold resolved_int, _env, precedence. intros Hd.
  destruct (int_flag flag); simpl; [auto|].
  destruct (environ w !! key); simpl; [auto|]. now rewrite Hd.
Qed.

Lemma main_to_csv_path (w : World') args t r p f k :
  main w args = (t, r) -> ToCsv p f k ∈ t ->
  p = os_path_join (data_dir_of w args) flat_jobs_list.
Proof.
  intros [(o & -> & Hl)|(tl & st & tw & c & Hl & Hw & -> & ->)]%main_cases Hin.
  - apply loop_silent in Hl as [Hws _]. apply elem_of_writes in Hin.
    rewrite Hws in Hin. now apply elem_of_nil in Hin.
  - pose proof (loop_silent _ _ _ _ _ _ _ Hl) as [Hws _].
    apply loop_next in Hl as (_ & _ & _ & _ & _ & _ & _ & Ho). simpl in Ho.
    apply write_obs in Hw as (_ & _ & _ & _ & Hw2).
    apply elem_of_writes in Hin.
    change (tl ++ Stdout (MFound (totaljobcount st)) :: tw)
      with (tl ++ [Stdout (MFound (totaljobcount st))] ++ tw) in Hin.
    rewrite !writes_app, Hws in Hin. simpl in Hin.
    destruct Hw2 as [(_ & E & _)|(path & Hp & E & _)]; rewrite E in Hin.
    + now apply elem_of_nil in Hin.
    + apply list_elem_of_singleton in Hin. injection Hin as -> _ _.
      rewrite Hp in Ho. destruct (search_terms_of w args); [discriminate|].
      now injection Ho.
Qed.

(** C5.  In every provider call of [main] each field is taken from the
    highest tier that provides it, where a flag provides a value unless it
    is absent, empty or zero: sites, location, country, Google term (its
    default is the term itself) and the term list as strings, the two
    integers with the environment value read by [int]; the directory
    created and written to is resolved the same way; and so is the
    boolean, its two flags read as one. *)
Theorem configuration_precedence (w : World') args t r n a res :
  main w args = (t, r) ->
  Scrape n a res ∈ t ->
  kw_site_name a
    = split_csv (precedence (str_flag (site args)) (environ w !! "SITE_NAME")
                   "indeed,linkedin,glassdoor")
  /\ kw_location a
     = precedence (str_flag (location args)) (environ w !! "LOCATION") "Canada"
  /\ Some (kw_results_wanted a)
     = precedence (Some <$> int_flag (results args))
         (PyInt.int <$> environ w !! "RESULTS_WANTED") (Some 20)
  /\ Some (kw_hours_old a)
     = precedence (Some <$> int_flag (hours_old args))
         (PyInt.int <$> environ w !! "HOURS_OLD") (Some 24)
  /\ kw_country_indeed a
     = precedence (str_flag (country_indeed args)) (environ w !! "COUNTRY_INDEED") "canada"
  /\ kw_google_search_term a
     = precedence (str_flag (google_term args)) (environ w !! "GOOGLE_SEARCH_TERM")
         (kw_search_term a)
  /\ search_terms_of w args
     = split_csv (precedence (str_flag (terms args)) (environ w !! "SEARCH_TERMS")
                    "Azure,devops")
  /\ (forall p, Makedirs p ∈ t ->
        p = precedence (str_flag (data_dir args)) (environ w !! "DATA_DIR") "/DATA")
  /\ (forall p f k, ToCsv p f k ∈ t ->
        p = os_path_join
              (precedence (str_flag (data_dir args)) (environ w !! "DATA_DIR") "/DATA")
              flat_jobs_list)
  /\ kw_linkedin_fetch_description a
     = precedence
         (bool_flag (linkedin_fetch_description args) (no_linkedin_fetch_description args))
         (env_token <$> environ w !! "LINKEDIN_FETCH_DESCRIPTION") true.
Proof.
  intros Hm Hin.
  destruct (main_scrape w args t r n a res Hm Hin) as (term & rw & ho & Hrw & Hho & -> & _).
  unfold site_name_of, search_terms_of. simpl.
  rewrite <- !or_str_precedence.
  repeat split.
  - exact (resolved_int_precedence w _ "RESULTS_WANTED" "20" 20 rw eq_refl Hrw).
  - exact (resolved_int_precedence w _ "HOURS_OLD" "24" 24 ho eq_refl Hho).
  - intros p Hp. exact (main_makedirs w args t r p Hm Hp).
  - intros p f k Hp. exact (main_to_csv_path w args t r p f k Hm Hp).
  - unfold bool_flag, _env_bool, env_token, tokens_true.
    destruct (no_linkedin_fetch_description args), (linkedin_fetch_description args),
      (environ w !! "LINKEDIN_FETCH_DESCRIPTION"); reflexivity.
Qed.

(** C7.  The term list and the site list are the resolved string split
    on commas, every piece trimmed, empty pieces dropped, in the order of
    the pieces: the pieces joined by commas are the string again, the
    result is the trimmed image of a sublist of the pieces, and no entry
    is empty, has a blank at either end or contains a comma. *)
Theorem term_splitting (w : World') args :
  search_terms_of w args
    = split_trim_drop (or_str (terms args) (_env w "SEARCH_TERMS" "Azure,devops"))
  /\ site_name_of w args
     = split_trim_drop (or_str (site args) (_env w "SITE_NAME" "indeed,linkedin,glassdoor"))
  /\ (forall csv,
        Str.join Str.comma (Str.split Str.comma csv) = csv
        /\ (exists kept, kept `sublist_of` Str.split Str.comma csv
                         /\ split_trim_drop csv = Str.strip <$> kept)
        /\ Forall (fun t => Str.truthy t = true /\ Str.strip t = t
                            /\ Str.mem_char Str.comma t = false)
                  (split_trim_drop csv))
  /\ split_trim_drop "Azure, devops ,, " = ["Azure"; "devops"].
Proof.
  unfold search_terms_of, site_name_of. rewrite !split_csv_split_trim_drop.
  repeat split; try reflexivity.
  - apply StrFacts.join_split.
  - rewrite <- split_csv_split_trim_drop. unfold split_csv.
    exists (filter (fun s => Str.truthy (Str.strip s) = true) (Str.split Str.comma csv)).
    split; [apply sublist_filter|reflexivity].
  - apply Forall_forall. intros t Ht. rewrite <- split_csv_split_trim_drop in Ht.
    apply split_csv_tokens in Ht as (Hne & Hs & Hc).
    split; [now apply StrFacts.truthy_true|auto].
Qed.

(** *** Zero flags *)

Lemma bind_ext {A B} (m : @Run Row A) (f g : A -> @Run Row B) :
  (forall a, f a = g a) -> m ≫= f = m ≫= g.
Proof. intros H. destruct m as [t [a|o]]; unfold mbind, run_bind; now rewrite ?H. Qed.

Lemma loop_ext (w : World') args1 args2 sites terms st :
  (forall st term, body w args1 sites st term = body w args2 sites st term) ->
  loop w args1 sites st terms = loop w args2 sites st terms.
Proof.
  intros Hb. revert st. induction terms as [|term rest IH]; intros st; [reflexivity|].
  rewrite !loop_cons, Hb. now apply bind_ext.
Qed.

Lemma collector_ext (w : World') args1 args2 :
  site args1 = site args2 -> terms args1 = terms args2 ->
  (forall sites st term, body w args1 sites st term = body w args2 sites st term) ->
  collector w args1 = collector w args2.
Proof.
  intros Hs Ht Hb.
  assert (Hm : main w args1 = main w args2).
  { unfold main, site_name_of, search_terms_of. rewrite Hs, Ht.
    now rewrite (loop_ext w args1 args2). }
  unfold collector, module. now rewrite Hm.
Qed.

(** What the provider gets when the flags do not decide an integer: in
    a run that passes the guard with a term to process and a directory
    that can be made, the first call is made with the resolved integers,
    and so is every later one. *)
Lemma calls_get_resolved (w : World') args d term rest rw ho :
  environ w !! "DATA_DIR" = Some d ->
  path_exists w (os_path_join d flat_jobs_list) = false ->
  search_terms_of w args = term :: rest ->
  resolved_int (results args) (_env w "RESULTS_WANTED" "20") rw ->
  resolved_int (hours_old args) (_env w "HOURS_OLD" "24") ho ->
  makedirs_error w (data_dir_of w args) = None ->
  exists a tl,
    scrapes (collector w args).1 = (0%nat, a, scrape_jobs w 0 a) :: tl
    /\ kw_search_term a = term
    /\ Forall (fun c => kw_results_wanted c.1.2 = rw /\ kw_hours_old c.1.2 = ho)
         ((0%nat, a, scrape_jobs w 0 a) :: tl).
Proof.
  intros Hd He Ht Hrw Hho Hmk.
  destruct (first_call w args d term rest rw ho Hd He Ht Hrw Hho Hmk) as [tl Hs].
  exists (kwargs_of w args (site_name_of w args) term rw ho), tl.
  split; [exact Hs|]. split; [reflexivity|].
  rewrite <- Hs. apply Forall_forall. intros [[n a] res] Hin.
  apply elem_of_scrapes, collector_scrape in Hin
    as (term' & rw' & ho' & Hrw' & Hho' & -> & _).
  simpl. split; eapply resolved_int_unique; eauto.
Qed.

(** C9.  A [--results 0] or [--hours-old 0] on the command line is as
    good as no flag.  [flag or int(...)] with the flag at 0 evaluates
    [int] on the variable's value, or on the default when the variable is
    not set, and yields that integer (or the [ValueError] of [int]); the
    whole run is the one without the flag; and in a run that passes the
    guard with a term to process and integers that [int] accepts, the
    provider is called, first for the first term, and every call carries
    the integer read from the environment or the default, not the zero. *)
Theorem zero_flag_is_absent (w : World') args :
  (forall raw, @or_int Row (Some 0) raw = or_int None raw)
  /\ collector w (with_results (Some 0) args) = collector w (with_results None args)
  /\ collector w (with_hours_old (Some 0) args) = collector w (with_hours_old None args)
  /\ (forall n a res,
        Scrape n a res ∈ (main w (with_results (Some 0) args)).1 ->
        Some (kw_results_wanted a) = PyInt.int (_env w "RESULTS_WANTED" "20"))
  /\ (forall n a res,
        Scrape n a res ∈ (main w (with_hours_old (Some 0) args)).1 ->
        Some (kw_hours_old a) = PyInt.int (_env w "HOURS_OLD" "24"))
  /\ (forall raw,
        @or_int Row (Some 0) raw
        = match PyInt.int raw with
          | Some n => ([], Next n)
          | None => ([], Halt (Uncaught (ValueError raw)))
          end)
  /\ (forall d term rest n,
        environ w !! "DATA_DIR" = Some d ->
        path_exists w (os_path_join d flat_jobs_list) = false ->
        search_terms_of w args = term :: rest ->
        PyInt.int (_env w "RESULTS_WANTED" "20") = Some n ->
        (exists ho, resolved_int (hours_old args) (_env w "HOURS_OLD" "24") ho) ->
        makedirs_error w (data_dir_of w args) = None ->
        exists a tl,
          scrapes (collector w (with_results (Some 0) args)).1
          = (0%nat, a, scrape_jobs w 0 a) :: tl
          /\ kw_search_term a = term
          /\ Forall (fun c => kw_results_wanted c.1.2 = n)
               ((0%nat, a, scrape_jobs w 0 a) :: tl))
  /\ (forall d term rest h,
        environ w !! "DATA_DIR" = Some d ->
        path_exists w (os_path_join d flat_jobs_list) = false ->
        search_terms_of w args = term :: rest ->
        (exists rw, resolved_int (results args) (_env w "RESULTS_WANTED" "20") rw) ->
        PyInt.int (_env w "HOURS_OLD" "24") = Some h ->
        makedirs_error w (data_dir_of w args) = None ->
        exists a tl,
          scrapes (collector w (with_hours_old (Some 0) args)).1
          = (0%nat, a, scrape_jobs w 0 a) :: tl
          /\ kw_search_term a = term
          /\ Forall (fun c => kw_hours_old c.1.2 = h)
               ((0%nat, a, scrape_jobs w 0 a) :: tl)).
Proof.
  split; [reflexivity|]. split; [apply collector_ext; reflexivity|].
  split; [apply collector_ext; reflexivity|].
  split; [|split; [|split; [|split]]].
  - intros n a res Hin.
    destruct (main w (with_results (Some 0) args)) as [t r] eqn:Hm.
    destruct (main_scrape w _ t r n a res Hm Hin) as (term & rw & ho & Hrw & _ & -> & _).
    exact Hrw.
  - intros n a res Hin.
    destruct (main w (with_hours_old (Some 0) args)) as [t r] eqn:Hm.
    destruct (main_scrape w _ t r n a res Hm Hin) as (term & rw & ho & _ & Hho & -> & _).
    exact Hho.
  - intros raw. unfold or_int. now destruct (PyInt.int raw).
  - intros d term rest n Hd He Ht Hn [ho Hho] Hmk.
    assert (Hrw : resolved_int (results (with_results (Some 0) args))
                    (_env w "RESULTS_WANTED" "20") n).
    { unfold resolved_int. simpl. now rewrite Hn. }
    destruct (calls_get_resolved w (with_results (Some 0) args) d term rest n ho
                Hd He Ht Hrw Hho Hmk) as (a & tl & Hs & Hterm & Hall).
    exists a, tl. split; [exact Hs|]. split; [exact Hterm|].
    eapply Forall_impl; [exact Hall|]. now intros c [H _].
  - intros d term rest h Hd He Ht [rw Hrw] Hh Hmk.
    assert (Hho : resolved_int (hours_old (with_hours_old (Some 0) args))
                    (_env w "HOURS_OLD" "24") h).
    { unfold resolved_int. simpl. now rewrite Hh. }
    destruct (calls_get_resolved w (with_hours_old (Some 0) args) d term rest rw h
                Hd He Ht Hrw Hho Hmk) as (a & tl & Hs & Hterm & Hall).
    exists a, tl. split; [exact Hs|]. split; [exact Hterm|].
    eapply Forall_impl; [exact Hall|]. now intros c [_ H].
Qed.

(** C10.  The guard looks at [DATA_DIR] in the environment and at
    nothing else.  Without the variable the process dies of [KeyError]
    right after the start-up message.  With it, the run is skipped exactly
    when the file exists under that directory; otherwise [main] runs,
    whatever [--data-dir] says and whatever exists elsewhere. *)
Theorem guard_reads_environ_only (w : World') args :
  (environ w !! "DATA_DIR" = None ->
     collector w args = ([Stdout MStarting], Uncaught (KeyError "DATA_DIR")))
  /\ (forall d, environ w !! "DATA_DIR" = Some d ->
        path_exists w (os_path_join d flat_jobs_list) = true ->
        collector w args
        = ([Stdout MStarting; Stdout (MAlreadyExists (os_path_join d flat_jobs_list));
            Stdout MExitingNormally], Exit 0))
  /\ (forall d, environ w !! "DATA_DIR" = Some d ->
        path_exists w (os_path_join d flat_jobs_list) = false ->
        collector w args = (Stdout MStarting :: (main w args).1, finish (main w args).2)).
Proof.
  unfold collector, module, environ_getitem.
  unfold print, emit, exit_with, raise, mbind, run_bind, mret, run_ret.
  refine (conj _ (conj _ _)).
  - now intros ->.
  - now intros d -> ->.
  - intros d -> ->. destruct (main w args) as [tm [c|o]]; reflexivity.
Qed.

(** C6.  With no term left after splitting, a run that passes the guard
    makes no pass through the loop and no provider call, but writes no
    file either: [out_csv] was never assigned, the writer's [except]
    clause catches that, and the exit code is 3. *)
Theorem no_terms_exit_3 (w : World') args d :
  environ w !! "DATA_DIR" = Some d ->
  path_exists w (os_path_join d flat_jobs_list) = false ->
  search_terms_of w args = [] ->
  collector w args
  = ([Stdout MStarting; Stdout (MFound 0); Stderr (MWriteFailed (UnboundLocal "out_csv"))],
     Exit 3).
Proof.
  intros Hd He Ht.
  unfold collector, module, environ_getitem, main. rewrite Hd, Ht.
  unfold print, emit, exit_with, raise, mbind, run_bind, mret, run_ret.
  rewrite He. reflexivity.
Qed.

End Contract.

(** * Runs on concrete inputs *)

Lemma scrape_failure_aborts_witness :
  Scenario.second_fails_run.2 = Exit 2
  /\ scrape_terms Scenario.second_fails_run.1 = ["a"; "b"]
  /\ writes Scenario.second_fails_run.1 = [].
Proof.
  destruct (scrape_failure_aborts Scenario.second_fails Scenario.no_flags
              Scenario.second_fails_run.1 Scenario.second_fails_run.2
              1%nat Scenario.second_fails_call "timeout")
    as (Ho & _ & Ht & _ & Hw & _).
  - vm_compute. reflexivity.
  - apply elem_of_raised. vm_compute. apply list_elem_of_here.
  - split; [exact Ho|]. split; [|exact Hw]. rewrite Ht. vm_compute. reflexivity.
Defined.

Lemma aggregation_witness :
  founds Scenario.three_and_five_run.1 = [8]
  /\ scrape_terms Scenario.three_and_five_run.1 = ["a"; "b"]
  /\ batches Scenario.three_and_five_run.1 = [[1; 2; 3]; [4; 5; 6; 7; 8]]%nat
  /\ (exists tl st,
        loop Scenario.three_and_five Scenario.no_flags
          (site_name_of Scenario.three_and_five Scenario.no_flags) initial ["a"; "b"]
        = (tl, Next st)
        /\ jobcollected st = [1; 2; 3; 4; 5; 6; 7; 8]%nat
        /\ totaljobcount st = 8)
  /\ writes Scenario.three_and_five_run.1
     = [("/out/flat_jobs_list.csv", [1; 2; 3; 4; 5; 6; 7; 8]%nat, to_csv_kwargs)].
Proof.
  destruct (aggregation Scenario.three_and_five Scenario.no_flags
              Scenario.three_and_five_run.1 Scenario.three_and_five_run.2)
    as (Ht & _ & _ & Hf & _ & _ & (tl & st & Hl & Hj & Htot & _) & Hw).
  - vm_compute. reflexivity.
  - vm_compute. reflexivity.
  - left. vm_compute. discriminate.
  - split; [rewrite Hf; vm_compute; reflexivity|].
    split; [rewrite Ht; vm_compute; reflexivity|].
    split; [vm_compute; reflexivity|].
    split; [|rewrite Hw; vm_compute; reflexivity].
    exists tl, st. split; [exact Hl|]. rewrite Hj, Htot. split; vm_compute; reflexivity.
Defined.

Lemma linkedin_fetch_description_resolved_witness :
  kw_linkedin_fetch_description (Scenario.call_a true) = true.
Proof.
  destruct (linkedin_fetch_description_resolved Scenario.fetch_yes Scenario.no_flags
              (main Scenario.fetch_yes Scenario.no_flags).1
              (main Scenario.fetch_yes Scenario.no_flags).2
              0%nat (Scenario.call_a true) (Returned [1%nat]))
    as (_ & _ & _ & _ & H & _).
  - vm_compute. reflexivity.
  - apply elem_of_scrapes. vm_compute. apply list_elem_of_here.
  - rewrite (H eq_refl eq_refl " YES "); [|vm_compute; reflexivity].
    vm_compute. reflexivity.
Defined.

(** C4, as worded: with [LINKEDIN_FETCH_DESCRIPTION=false] and no flag
    the provider is called with [linkedin_fetch_description] false, while
    the wording (any other token gives the default, true) says true. *)
Lemma fetch_description_other_token :
  exists n a res,
    Scrape n a res ∈ (main Scenario.fetch_false Scenario.no_flags).1
    /\ kw_linkedin_fetch_description a = false
    /\ env_bool_as_specified
         (environ Scenario.fetch_false !! "LINKEDIN_FETCH_DESCRIPTION") true = true.
Proof.
  exists 0%nat, (Scenario.call_a false), (Returned [1%nat]).
  split; [|split; vm_compute; reflexivity].
  apply elem_of_scrapes. vm_compute. apply list_elem_of_here.
Qed.

Lemma configuration_precedence_witness :
  kw_site_name Scenario.all_flags_call = ["linkedin"; "indeed"]
  /\ kw_location Scenario.all_flags_call = "Paris"
  /\ Some (kw_results_wanted Scenario.all_flags_call) = Some 5
  /\ search_terms_of Scenario.all_tiers Scenario.all_flags = ["flagterm"]
  /\ (forall p, Makedirs p ∈ (main Scenario.all_tiers Scenario.all_flags).1 -> p = "/flag").
Proof.
  destruct (configuration_precedence Scenario.all_tiers Scenario.all_flags
              (main Scenario.all_tiers Scenario.all_flags).1
              (main Scenario.all_tiers Scenario.all_flags).2
              0%nat Scenario.all_flags_call (Returned [1%nat]))
    as (Hs & Hl & Hr & _ & _ & _ & Ht & Hm & _).
  - vm_compute. reflexivity.
  - apply elem_of_scrapes. vm_compute. apply list_elem_of_here.
  - split; [rewrite Hs; vm_compute; reflexivity|].
    split; [rewrite Hl; vm_compute; reflexivity|].
    split; [rewrite Hr; vm_compute; reflexivity|].
    split; [rewrite Ht; vm_compute; reflexivity|].
    intros p Hp. rewrite (Hm p Hp). vm_compute. reflexivity.
Defined.

(** C5, as worded: an empty [--location] and [--results 0] are explicit
    flag values, yet the provider is called with the environment's
    [Berlin] and [50]. *)
Lemma falsy_flag_falls_through :
  exists n a res,
    Scrape n a res ∈ (main Scenario.all_tiers Scenario.falsy_flags).1
    /\ kw_location a
       <> precedence (location Scenario.falsy_flags)
            (environ Scenario.all_tiers !! "LOCATION") "Canada"
    /\ Some (kw_results_wanted a)
       <> precedence (Some <$> results Scenario.falsy_flags)
            (PyInt.int <$> environ Scenario.all_tiers !! "RESULTS_WANTED") (Some 20).
Proof.
  exists 0%nat, Scenario.falsy_flags_call, (Returned [1%nat]).
  split; [|split; vm_compute; discriminate].
  apply elem_of_scrapes. vm_compute. apply list_elem_of_here.
Qed.

Lemma guard_reads_environ_only_witness :
  path_exists Scenario.file_in_flag_dir
    (os_path_join (data_dir_of Scenario.file_in_flag_dir Scenario.data_dir_flag)
       flat_jobs_list) = true
  /\ (collector Scenario.file_in_flag_dir Scenario.data_dir_flag).2 = Exit 0
  /\ scrape_terms (collector Scenario.file_in_flag_dir Scenario.data_dir_flag).1 = ["a"]
  /\ writes (collector Scenario.file_in_flag_dir Scenario.data_dir_flag).1
     = [("/flag/flat_jobs_list.csv", [1%nat], to_csv_kwargs)].
Proof.
  destruct (guard_reads_environ_only Scenario.file_in_flag_dir Scenario.data_dir_flag)
    as (_ & _ & H).
  rewrite (H "/env"); [|vm_compute; reflexivity|vm_compute; reflexivity].
  repeat split; vm_compute; reflexivity.
Defined.

(** C3.  With no [DATA_DIR] in the environment and the file present in
    the default directory [/DATA], the process dies of [KeyError] instead
    of exiting with 0; with the file present in the directory of
    [--data-dir] and [DATA_DIR] naming another one, it calls the provider
    and writes the file again. *)
Theorem existing_output_not_skipped :
  (path_exists Scenario.file_in_default_dir
     (os_path_join (data_dir_of Scenario.file_in_default_dir Scenario.no_flags)
        flat_jobs_list) = true
   /\ collector Scenario.file_in_default_dir Scenario.no_flags
      = ([Stdout MStarting], Uncaught (KeyError "DATA_DIR")))
  /\ (path_exists Scenario.file_in_flag_dir
        (os_path_join (data_dir_of Scenario.file_in_flag_dir Scenario.data_dir_flag)
           flat_jobs_list) = true
      /\ scrape_terms (collector Scenario.file_in_flag_dir Scenario.data_dir_flag).1 = ["a"]
      /\ writes (collector Scenario.file_in_flag_dir Scenario.data_dir_flag).1
         = [("/flag/flat_jobs_list.csv", [1%nat], to_csv_kwargs)]).
Proof. repeat split; vm_compute; reflexivity. Qed.

Lemma no_terms_exit_3_witness :
  search_terms_of Scenario.no_terms Scenario.no_flags = []
  /\ collector Scenario.no_terms Scenario.no_flags
     = ([Stdout MStarting; Stdout (MFound 0);
         Stderr (MWriteFailed (UnboundLocal "out_csv"))], Exit 3).
Proof.
  split; [vm_compute; reflexivity|].
  apply (no_terms_exit_3 Scenario.no_terms Scenario.no_flags "/out");
    vm_compute; reflexivity.
Defined.

(** [--results 0] against [RESULTS_WANTED=50]: the provider is called
    with 50; [--results 0 --hours-old 0] against an environment without
    the two variables: the provider is called with 20 and 24. *)
Lemma zero_flag_is_absent_witness :
  (results Scenario.falsy_flags = Some 0
   /\ (fun c => (kw_search_term c.1.2, kw_results_wanted c.1.2))
        <$> head (scrapes (collector Scenario.all_tiers Scenario.falsy_flags).1)
      = Some ("a", 50)
   /\ Forall (fun c => kw_results_wanted c.1.2 = 50)
        (scrapes (collector Scenario.all_tiers Scenario.falsy_flags).1))
  /\ (results Scenario.zero_flags = Some 0
      /\ (fun c => (kw_search_term c.1.2, kw_results_wanted c.1.2))
           <$> head (scrapes (collector Scenario.three_and_five Scenario.zero_flags).1)
         = Some ("a", 20))
  /\ (hours_old Scenario.zero_flags = Some 0
      /\ (fun c => (kw_search_term c.1.2, kw_hours_old c.1.2))
           <$> head (scrapes (collector Scenario.three_and_five Scenario.zero_flags).1)
         = Some ("a", 24)).
Proof.
  split; [|split].
  - destruct (zero_flag_is_absent Scenario.all_tiers Scenario.falsy_flags)
      as (_ & _ & _ & _ & _ & _ & Hr & _).
    destruct (Hr "/env" "a" [] 50 eq_refl eq_refl eq_refl eq_refl
                (ex_intro _ 72 eq_refl) eq_refl) as (a & tl & Hs & Ht & Hall).
    change (with_results (Some 0) Scenario.falsy_flags) with Scenario.falsy_flags in Hs.
    split; [reflexivity|]. rewrite Hs. split; [|exact Hall].
    apply Forall_cons in Hall as [Hn _]. simpl in Hn |- *. now rewrite Ht, Hn.
  - destruct (zero_flag_is_absent Scenario.three_and_five Scenario.zero_flags)
      as (_ & _ & _ & _ & _ & _ & Hr & _).
    destruct (Hr "/out" "a" ["b"] 20 eq_refl eq_refl eq_refl eq_refl
                (ex_intro _ 24 eq_refl) eq_refl) as (a & tl & Hs & Ht & Hall).
    change (with_results (Some 0) Scenario.zero_flags) with Scenario.zero_flags in Hs.
    split; [reflexivity|]. rewrite Hs.
    apply Forall_cons in Hall as [Hn _]. simpl in Hn |- *. now rewrite Ht, Hn.
  - destruct (zero_flag_is_absent Scenario.three_and_five Scenario.zero_flags)
      as (_ & _ & _ & _ & _ & _ & _ & Hh).
    destruct (Hh "/out" "a" ["b"] 24 eq_refl eq_refl eq_refl
                (ex_intro _ 20 eq_refl) eq_refl eq_refl) as (a & tl & Hs & Ht & Hall).
    change (with_hours_old (Some 0) Scenario.zero_flags) with Scenario.zero_flags in Hs.
    split; [reflexivity|]. rewrite Hs.
    apply Forall_cons in Hall as [Hn _]. simpl in Hn |- *. now rewrite Ht, Hn.
Defined.

(** * Further properties of the code *)

(** ** More on [strip], [lower] and [split] *)

Module StrMore.
Import Str StrFacts.

Lemma isspace_lower_char c : isspace (lower_char c) = isspace c.
Proof. destruct c as [[] [] [] [] [] [] [] []]; reflexivity. Qed.

Lemma head_space_lower s : head_space (lower s) = head_space s.
Proof. destruct s; simpl; [reflexivity|apply isspace_lower_char]. Qed.

Lemma last_space_lower s : last_space (lower s) = last_space s.
Proof.
  induction s as [|c s IH]; [reflexivity|].
  destruct s as [|d s]; simpl in *; [apply isspace_lower_char|exact IH].
Qed.

Lemma all_chars_app p s1 s2 :
  all_chars p (s1 +:+ s2) = all_chars p s1 && all_chars p s2.
Proof.
  induction s1 as [|c s1 IH]; [reflexivity|].
  rewrite app_cons. simpl. rewrite IH. now rewrite andb_assoc.
Qed.

Lemma lstrip_blank s : all_chars isspace s = true -> lstrip s = EmptyString.
Proof.
  induction s as [|c s IH]; simpl; [reflexivity|].
  intros [Hc Hs]%andb_true_iff. rewrite Hc. auto.
Qed.

Lemma rstrip_blank s : all_chars isspace s = true -> rstrip s = EmptyString.
Proof.
  induction s as [|c s IH]; simpl; [reflexivity|].
  intros [Hc Hs]%andb_true_iff. rewrite (IH Hs), Hc. reflexivity.
Qed.

Lemma lstrip_blank_app l s : all_chars isspace l = true -> lstrip (l +:+ s) = lstrip s.
Proof.
  induction l as [|c l IH]; [reflexivity|]. rewrite app_cons. simpl.
  intros [Hc Hl]%andb_true_iff. rewrite Hc. auto.
Qed.

Lemma rstrip_app_blank s r : all_chars isspace r = true -> rstrip (s +:+ r) = rstrip s.
Proof.
  intros Hr. induction s as [|c s IH]; [now apply rstrip_blank|].
  rewrite app_cons. simpl. now rewrite IH.
Qed.

(** Blanks around a string do not change what [strip] gives. *)
Lemma strip_blank_after s r : all_chars isspace r = true -> strip (s +:+ r) = strip s.
Proof.
  intros Hr. unfold strip. induction s as [|c s IH].
  - rewrite app_empty. now rewrite (lstrip_blank r Hr).
  - rewrite app_cons. simpl. destruct (isspace c); [exact IH|].
    rewrite <- app_cons. now apply rstrip_app_blank.
Qed.

Lemma strip_padded l s r :
  all_chars isspace l = true -> all_chars isspace r = true ->
  strip (l +:+ s +:+ r) = strip s.
Proof.
  intros Hl Hr. unfold strip at 1. rewrite (lstrip_blank_app l _ Hl).
  now apply strip_blank_after.
Qed.

Lemma strip_empty_iff s : strip s = EmptyString <-> all_chars isspace s = true.
Proof.
  split.
  - intros E. destruct (strip_decompose s) as (l & r & Hs & Hl & Hr).
    rewrite E in Hs. rewrite Hs, all_chars_app, Hl. exact Hr.
  - intros H. unfold strip. now rewrite (lstrip_blank s H).
Qed.

Lemma strip_trimmed_id s :
  head_space s = false -> last_space s = false -> strip s = s.
Proof. intros Hh Hl. unfold strip. rewrite (lstrip_id s Hh). now apply rstrip_id. Qed.

(** Splitting what [join] made of separator-free pieces gives the pieces
    back. *)
Lemma split_app_sep sep t rest :
  mem_char sep t = false ->
  split sep (t +:+ String sep rest) = t :: split sep rest.
Proof.
  induction t as [|c t IH].
  - intros _. rewrite app_empty. simpl. now rewrite Ascii.eqb_refl.
  - intros H. simpl in H. apply orb_false_iff in H as [Hc Ht].
    rewrite app_cons. simpl. rewrite Hc, (IH Ht). reflexivity.
Qed.

Lemma split_sep_free_id sep t : mem_char sep t = false -> split sep t = [t].
Proof.
  induction t as [|c t IH]; simpl; [reflexivity|].
  intros [Hc Ht]%orb_false_iff. rewrite Hc, (IH Ht). reflexivity.
Qed.

Lemma split_join sep l :
  l <> [] -> Forall (fun t => mem_char sep t = false) l ->
  split sep (join sep l) = l.
Proof.
  induction l as [|t l IH]; [congruence|]. intros _ Hall.
  apply Forall_cons in Hall as [Ht Hl].
  destruct l as [|u l].
  - simpl. now apply split_sep_free_id.
  - change (join sep (t :: u :: l)) with (t +:+ String sep (join sep (u :: l))).
    rewrite (split_app_sep sep t _ Ht). f_equal. now apply IH.
Qed.

(** Every piece between commas is blank exactly when the string holds
    commas and blanks only. *)
Lemma split_blank_pieces s :
  Forall (fun p => all_chars isspace p = true) (split comma s)
  <-> all_chars (fun c => isspace c || Ascii.eqb c comma) s = true.
Proof.
  induction s as [|c s IH]; simpl.
  - split; [reflexivity|]. intros _. now repeat constructor.
  - destruct (Ascii.eqb c comma) eqn:Ec.
    + rewrite orb_true_r. simpl. rewrite <- IH. split.
      * now intros [_ H]%Forall_cons.
      * intros H. now constructor.
    + rewrite orb_false_r.
      destruct (split comma s) as [|t ts] eqn:E; [now apply split_nonempty in E|].
      rewrite andb_true_iff, <- IH. split.
      * intros [Hp Hts]%Forall_cons. simpl in Hp.
        apply andb_true_iff in Hp as [Hc Ht]. split; [exact Hc|now constructor].
      * intros [Hc [Ht Hts]%Forall_cons]. constructor; [|exact Hts].
        simpl. now rewrite Hc, Ht.
Qed.

End StrMore.

Lemma filter_nil_iff {A} (P : A -> Prop) `{forall x, Decision (P x)} (l : list A) :
  filter P l = [] <-> Forall (fun x => ~ P x) l.
Proof.
  induction l as [|x l IH]; [split; [constructor|reflexivity]|].
  rewrite filter_cons, Forall_cons. destruct (decide (P x)) as [Hx|Hx].
  - split; [discriminate|]. now intros [? _].
  - rewrite IH. tauto.
Qed.

Lemma split_csv_fixed (l : list string) :
  Forall (fun t => t <> EmptyString /\ Str.strip t = t) l ->
  Str.strip <$> filter (fun s => Str.truthy (Str.strip s) = true) l = l.
Proof.
  induction l as [|t l IH]; [reflexivity|].
  intros [[Hne Hs] Hl]%Forall_cons.
  rewrite filter_cons_True; [|rewrite Hs; now apply StrFacts.truthy_true].
  rewrite fmap_cons, Hs. f_equal. now apply IH.
Qed.

(** X1.  The resolved list is stable: joined with commas and resolved
    again, it is the same list. *)
Theorem split_csv_join (csv : string) :
  split_csv (Str.join Str.comma (split_csv csv)) = split_csv csv.
Proof.
  destruct (split_csv csv) as [|t l] eqn:E; [reflexivity|].
  assert (Hall : forall u, u ∈ t :: l ->
            u <> EmptyString /\ Str.strip u = u /\ Str.mem_char Str.comma u = false).
  { intros u Hu. rewrite <- E in Hu. now apply split_csv_tokens in Hu. }
  unfold split_csv at 1. rewrite StrMore.split_join; [|discriminate|].
  - apply split_csv_fixed, Forall_forall. intros u Hu.
    destruct (Hall u Hu) as (? & ? & _). auto.
  - apply Forall_forall. intros u Hu. now destruct (Hall u Hu) as (_ & _ & ?).
Qed.

(** The resolved list is empty exactly when the string holds nothing
    but commas and blanks (the empty string included). *)
Lemma split_csv_nil_iff (csv : string) :
  split_csv csv = [] <-> only_separators csv = true.
Proof.
  unfold split_csv, only_separators. rewrite <- StrMore.split_blank_pieces. split.
  - intros E%fmap_nil_inv. apply filter_nil_iff in E.
    eapply Forall_impl; [exact E|]. intros p Hp. simpl in Hp.
    apply StrMore.strip_empty_iff. destruct (Str.strip p); [reflexivity|].
    now destruct Hp.
  - intros H.
    assert (E : filter (fun s => Str.truthy (Str.strip s) = true)
                  (Str.split Str.comma csv) = []); [|now rewrite E].
    apply filter_nil_iff. eapply Forall_impl; [exact H|].
    intros p Hp%StrMore.strip_empty_iff. simpl. rewrite Hp. discriminate.
Qed.

(** ** More on the run *)

Section Coverage.

Context {Row : Type}.
Abbreviation World'' := (@World Row).
Abbreviation Event'' := (@Event Row).

Lemma makedirs_calls_app (t1 t2 : list Event'') :
  makedirs_calls (t1 ++ t2) = makedirs_calls t1 ++ makedirs_calls t2.
Proof. apply omap_app. Qed.

Lemma warnings_app (t1 t2 : list Event'') :
  warnings (t1 ++ t2) = warnings t1 ++ warnings t2.
Proof. apply omap_app. Qed.

Lemma elem_of_makedirs_calls (t : list Event'') p :
  Makedirs p ∈ t <-> p ∈ makedirs_calls t.
Proof.
  unfold makedirs_calls. rewrite list_elem_of_omap. split.
  - intros H. eexists. split; [exact H|reflexivity].
  - intros (ev & Hev & Heq). destruct ev; simplify_eq. exact Hev.
Qed.

(** A first pass that stops, stops [main]. *)
Lemma main_first_halt (w : World'') args term rest tb o :
  search_terms_of w args = term :: rest ->
  body w args (site_name_of w args) initial term = (tb, Halt o) ->
  main w args = (tb, Halt o).
Proof.
  intros Ht Hb. unfold main. rewrite Ht, loop_cons.
  rewrite (bind_halt _ _ tb o Hb). reflexivity.
Qed.

(** What the first pass does when an integer is malformed or the
    directory cannot be made. *)
Lemma body_bad_results_wanted (w : World'') args sites st term :
  int_flag (results args) = None ->
  PyInt.int (_env w "RESULTS_WANTED" "20") = None ->
  body w args sites st term
  = ([Stdout (MProcessing term)],
     Halt (Uncaught (ValueError (_env w "RESULTS_WANTED" "20")))).
Proof.
  intros Hf Hi. pose proof (body_spec w args sites st term) as H.
  destruct (body w args sites st term) as [tb rb].
  inversion H as [? ?|rw Hrw ? ?|rw ho msg Hrw ? ?|rw ho e Hrw ? ? ?
                  |rw ho jobs Hrw ? ? ?]; subst; try reflexivity;
    unfold resolved_int in Hrw; rewrite Hf, Hi in Hrw; discriminate.
Qed.

Lemma body_bad_hours_old (w : World'') args sites st term rw :
  resolved_int (results args) (_env w "RESULTS_WANTED" "20") rw ->
  int_flag (hours_old args) = None ->
  PyInt.int (_env w "HOURS_OLD" "24") = None ->
  body w args sites st term
  = ([Stdout (MProcessing term)],
     Halt (Uncaught (ValueError (_env w "HOURS_OLD" "24")))).
Proof.
  intros Hrw Hf Hi. pose proof (body_spec w args sites st term) as H.
  destruct (body w args sites st term) as [tb rb]. unfold resolved_int in *.
  inversion H as [Hf' Hi'|rw' ? ? ?|rw' ho msg ? Hho ?|rw' ho e ? Hho ? ?
                  |rw' ho jobs ? Hho ? ?]; subst; try reflexivity;
    unfold resolved_int in *.
  - rewrite Hf', Hi' in Hrw. discriminate.
  - rewrite Hf, Hi in Hho. discriminate.
  - rewrite Hf, Hi in Hho. discriminate.
  - rewrite Hf, Hi in Hho. discriminate.
Qed.

Lemma body_makedirs_error (w : World'') args sites st term rw ho msg :
  resolved_int (results args) (_env w "RESULTS_WANTED" "20") rw ->
  resolved_int (hours_old args) (_env w "HOURS_OLD" "24") ho ->
  makedirs_error w (data_dir_of w args) = Some msg ->
  body w args sites st term
  = (Stdout (MProcessing term) :: warning args ++ [Makedirs (data_dir_of w args)],
     Halt (Uncaught (OSError (data_dir_of w args)))).
Proof.
  intros Hrw Hho Hmk. pose proof (body_spec w args sites st term) as H.
  destruct (body w args sites st term) as [tb rb]. unfold resolved_int in *.
  inversion H as [Hf' Hi'|rw' ? Hf' Hi'|rw' ho' msg' ? ? ?|rw' ho' e ? ? Hm ?
                  |rw' ho' jobs ? ? Hm ?]; subst; try reflexivity;
    unfold resolved_int in *.
  - rewrite Hf', Hi' in Hrw. discriminate.
  - rewrite Hf', Hi' in Hho. discriminate.
  - congruence.
  - congruence.
Qed.

(** An exception that escapes the loop escapes its first pass, and is
    one of three. *)
Lemma loop_uncaught (w : World'') args sites terms st t e :
  loop w args sites st terms = (t, Halt (Uncaught e)) ->
  exists term rest, terms = term :: rest
    /\ ((e = ValueError (_env w "RESULTS_WANTED" "20")
         /\ int_flag (results args) = None
         /\ PyInt.int (_env w "RESULTS_WANTED" "20") = None
         /\ t = [Stdout (MProcessing term)])
        \/ (e = ValueError (_env w "HOURS_OLD" "24")
            /\ int_flag (hours_old args) = None
            /\ PyInt.int (_env w "HOURS_OLD" "24") = None
            /\ t = [Stdout (MProcessing term)])
        \/ (e = OSError (data_dir_of w args)
            /\ (exists msg, makedirs_error w (data_dir_of w args) = Some msg)
            /\ t = Stdout (MProcessing term) :: warning args
                   ++ [Makedirs (data_dir_of w args)])).
Proof.
  destruct terms as [|term rest]; [discriminate|]. exists term, rest.
  split; [reflexivity|]. revert H.
  rewrite loop_cons. intros [(t1 & st1 & t2 & E1 & E2 & ->)|(o & E1 & [= <-])]%bind_inv.
  - exfalso. pose proof (body_next_makedirs _ _ _ _ _ _ _ E1) as Hmk.
    apply body_next in E1 as (rw & ho & jobs & Hrw & Hho & _).
    eapply loop_no_crash; eauto.
  - pose proof (body_spec w args sites st term) as H. rewrite E1 in H.
    inversion H as [Hf Hi|rw ? Hf Hi|rw ho msg ? ? Hm|rw ho e' ? ? ? ?
                    |rw ho jobs ? ? ? ?]; subst.
    + left. auto.
    + right. left. auto.
    + right. right. eauto.
Qed.

Lemma last_of_app {A} (x : A) l1 l2 y : last (x :: l1 ++ l2 ++ [y]) = Some y.
Proof. rewrite app_comm_cons, app_assoc. apply last_snoc. Qed.

(** X3.  A boolean variable that is set gives true exactly when its
    value is one of the tokens 1, true, yes, y in any letter case with any
    blanks around it; the default plays no part then. *)
Theorem env_bool_accepts (w : World'') key default_ raw :
  environ w !! key = Some raw ->
  _env_bool w key default_ = true
  <-> exists l tok r,
        raw = l +:+ tok +:+ r
        /\ blank l = true /\ blank r = true
        /\ Str.lower tok ∈ tokens_true.
Proof.
  intros E. unfold _env_bool. rewrite E, bool_decide_eq_true.
  change ["1"; "true"; "yes"; "y"] with tokens_true. split.
  - intros H. destruct (StrFacts.strip_decompose raw) as (l & r & Hs & Hl & Hr).
    exists l, (Str.strip raw), r. auto.
  - intros (l & tok & r & -> & Hl & Hr & Ht).
    rewrite (StrMore.strip_padded l tok r Hl Hr).
    rewrite StrMore.strip_trimmed_id; [exact Ht| |].
    + rewrite <- StrMore.head_space_lower.
      unfold tokens_true in Ht.
      repeat (apply elem_of_cons in Ht as [->|Ht]; [reflexivity|]).
      now apply elem_of_nil in Ht.
    + rewrite <- StrMore.last_space_lower.
      unfold tokens_true in Ht.
      repeat (apply elem_of_cons in Ht as [->|Ht]; [reflexivity|]).
      now apply elem_of_nil in Ht.
Qed.

(** X4.  The command line enters the model as the namespace [args]
    that [parse_args()] returns; a run in which [argparse] itself exits
    (status 2 for a command line it refuses, 0 for [--help]) has no
    namespace and is not among the runs below.  For every namespace, the
    run ends in one of seven ways: [KeyError] for [DATA_DIR] right after
    the start-up message; [ValueError] for one of the two integers or
    [OSError] for the output directory, each before any provider call;
    exit code 2 with the scrape failure as the last thing said; exit code
    3 with the write failure as the last thing said; or exit code 0 after
    the skip notice or the confirmation of the write. *)
Theorem run_outcomes (w : World'') args :
  let t := (collector w args).1 in
  let o := (collector w args).2 in
  (o = Uncaught (KeyError "DATA_DIR") /\ t = [Stdout MStarting])
  \/ (o = Uncaught (ValueError (_env w "RESULTS_WANTED" "20"))
      /\ scrapes t = [] /\ makedirs_calls t = [])
  \/ (o = Uncaught (ValueError (_env w "HOURS_OLD" "24"))
      /\ scrapes t = [] /\ makedirs_calls t = [])
  \/ (o = Uncaught (OSError (data_dir_of w args)) /\ scrapes t = [])
  \/ (o = Exit 2 /\ exists e, last t = Some (Stderr (MScrapeFailed e)))
  \/ (o = Exit 3 /\ exists c, last t = Some (Stderr (MWriteFailed c)))
  \/ (o = Exit 0
      /\ (last t = Some (Stdout MExitingNormally)
          \/ exists p, last t = Some (Stdout (MWrote p)))).
Proof.
  cbv zeta. destruct (collector w args) as [t o] eqn:Hc. simpl.
  apply collector_cases in Hc
    as [(_ & -> & ->)|[(d & _ & _ & -> & ->)|(d & tm & r & _ & _ & Hm & -> & ->)]].
  - left. auto.
  - do 6 right. split; [reflexivity|]. left. reflexivity.
  - apply main_cases in Hm as [(o & -> & Hl)|(tl & st & tw & c & Hl & Hw & -> & ->)].
    + simpl. destruct o as [c|e].
      * apply loop_halt in Hl as [(-> & pre & n & a & e & -> & _)|([e [=]] & _)].
        do 4 right. left. split; [reflexivity|]. exists e.
        apply (last_of_app _ pre [Scrape n a (Raised e)]).
      * apply loop_uncaught in Hl
          as (term & rest & _ & [(-> & _ & _ & ->)|[(-> & _ & _ & ->)|(-> & _ & ->)]]).
        -- right. left. repeat split.
        -- right. right. left. repeat split.
        -- do 3 right. left. split; [reflexivity|].
           unfold warning. destruct (both_flags args); reflexivity.
    + simpl.
      destruct (write_cases w st) as [(_ & E)|[(x & msg & _ & _ & E)|(p & _ & _ & E)]];
        rewrite E in Hw; injection Hw as <- <-.
      * do 5 right. left. split; [reflexivity|]. eexists.
        apply (last_of_app _ tl [Stdout (MFound (totaljobcount st))]).
      * do 5 right. left. split; [reflexivity|]. eexists.
        apply (last_of_app _ tl [Stdout (MFound (totaljobcount st));
                                 ToCsv x (jobcollected st) to_csv_kwargs]).
      * do 6 right. split; [reflexivity|]. right. exists p.
        apply (last_of_app _ tl [Stdout (MFound (totaljobcount st));
                                 ToCsv p (jobcollected st) to_csv_kwargs]).
Qed.

(** X5.  With at least one term to process and no usable [--results]
    (or [--hours-old]) flag, a [RESULTS_WANTED] (or [HOURS_OLD]) that [int]
    refuses kills the run with [ValueError] in the first pass: after the
    start-up and the first progress message, before the directory is made
    and before any provider call. *)
Theorem malformed_integer (w : World'') args d term rest :
  environ w !! "DATA_DIR" = Some d ->
  path_exists w (os_path_join d flat_jobs_list) = false ->
  search_terms_of w args = term :: rest ->
  (int_flag (results args) = None ->
   PyInt.int (_env w "RESULTS_WANTED" "20") = None ->
   collector w args
   = ([Stdout MStarting; Stdout (MProcessing term)],
      Uncaught (ValueError (_env w "RESULTS_WANTED" "20"))))
  /\ ((exists rw, resolved_int (results args) (_env w "RESULTS_WANTED" "20") rw) ->
      int_flag (hours_old args) = None ->
      PyInt.int (_env w "HOURS_OLD" "24") = None ->
      collector w args
      = ([Stdout MStarting; Stdout (MProcessing term)],
         Uncaught (ValueError (_env w "HOURS_OLD" "24")))).
Proof.
  intros Hd He Ht. rewrite (guard_passed w args d Hd He). split.
  - intros Hf Hi.
    rewrite (main_first_halt w args term rest _ _ Ht
               (body_bad_results_wanted w args _ _ term Hf Hi)).
    reflexivity.
  - intros [rw Hrw] Hf Hi.
    rewrite (main_first_halt w args term rest _ _ Ht
               (body_bad_hours_old w args _ _ term rw Hrw Hf Hi)).
    reflexivity.
Qed.

Ltac not_listed H :=
  repeat (apply elem_of_cons in H as [H|H]; [discriminate|]);
  now apply elem_of_nil in H.

(** X6.  Non-zero [--results] and [--hours-old] flags, negative ones
    included, reach every provider call unchanged, and the variables are
    then never read: however malformed they are, no run ends in
    [ValueError]. *)
Theorem integer_flags_shield (w : World'') args r h :
  int_flag (results args) = Some r ->
  int_flag (hours_old args) = Some h ->
  (forall e, (collector w args).2 <> Uncaught (ValueError e))
  /\ (forall n a res, Scrape n a res ∈ (collector w args).1 ->
        kw_results_wanted a = r /\ kw_hours_old a = h).
Proof.
  intros Hr Hh. split.
  - intros e He. destruct (collector w args) as [t o] eqn:Hc. simpl in He. subst o.
    apply collector_cases in Hc
      as [(_ & _ & [=])|[(d & _ & _ & _ & [=])|(d & tm & r' & _ & _ & Hm & _ & Hf)]].
    apply main_cases in Hm as [(o & -> & Hl)|(tl & st & tw & c & _ & _ & _ & ->)];
      [|discriminate].
    simpl in Hf. subst o.
    apply loop_uncaught in Hl as (term & rest & _ & [(_ & H & _)|[(_ & H & _)|([=] & _)]]);
      congruence.
  - intros n a res Hin.
    apply collector_scrape in Hin as (term & rw & ho & Hrw & Hho & -> & _).
    unfold resolved_int in *. rewrite Hr in Hrw. rewrite Hh in Hho.
    simpl in *. split; congruence.
Qed.

(** X7.  If the output directory cannot be made, the run dies of
    [OSError] in the first pass, right after the call of [os.makedirs]:
    no provider call, nothing written. *)
Theorem makedirs_failure (w : World'') args d term rest rw ho msg :
  environ w !! "DATA_DIR" = Some d ->
  path_exists w (os_path_join d flat_jobs_list) = false ->
  search_terms_of w args = term :: rest ->
  resolved_int (results args) (_env w "RESULTS_WANTED" "20") rw ->
  resolved_int (hours_old args) (_env w "HOURS_OLD" "24") ho ->
  makedirs_error w (data_dir_of w args) = Some msg ->
  collector w args
  = (Stdout MStarting :: Stdout (MProcessing term) :: warning args
     ++ [Makedirs (data_dir_of w args)],
     Uncaught (OSError (data_dir_of w args))).
Proof.
  intros Hd He Ht Hrw Hho Hmk. rewrite (guard_passed w args d Hd He).
  rewrite (main_first_halt w args term rest _ _ Ht
             (body_makedirs_error w args _ _ term rw ho msg Hrw Hho Hmk)).
  reflexivity.
Qed.

(** X8.  If [to_csv] raises after a loop that went well, the run exits
    with 3: the provider was asked for every term, the total was
    reported, [to_csv] was called once, under the resolved directory and
    on the batches laid end to end, and is not called again; the failure
    is the last thing said, on the error stream, right after the call, and
    no confirmation is printed.  The collector does nothing about what the
    failed call has left at that path: if a file is there then, however
    incomplete, the next run without a usable [--data-dir] takes it for
    the output and skips. *)
Theorem write_failure (w : World'') args d term rest msg :
  environ w !! "DATA_DIR" = Some d ->
  path_exists w (os_path_join d flat_jobs_list) = false ->
  search_terms_of w args = term :: rest ->
  (exists rw, resolved_int (results args) (_env w "RESULTS_WANTED" "20") rw) ->
  (exists ho, resolved_int (hours_old args) (_env w "HOURS_OLD" "24") ho) ->
  makedirs_error w (data_dir_of w args) = None ->
  (forall n a e, scrape_jobs w n a <> Raised e) ->
  to_csv_error w (os_path_join (data_dir_of w args) flat_jobs_list) = Some msg ->
  let path := os_path_join (data_dir_of w args) flat_jobs_list in
  let t := (collector w args).1 in
  (collector w args).2 = Exit 3
  /\ scrape_terms t = term :: rest
  /\ founds t = [sum_lengths (batches t)]
  /\ writes t = [(path, concat (batches t), to_csv_kwargs)]
  /\ (exists pre, t = pre ++ [ToCsv path (concat (batches t)) to_csv_kwargs;
                              Stderr (MWriteFailed (WriteError msg))])
  /\ (forall p, Stdout (MWrote p) ∉ t)
  /\ (str_flag (data_dir args) = None ->
      collector (with_file path w) args
      = ([Stdout MStarting; Stdout (MAlreadyExists path); Stdout MExitingNormally],
         Exit 0)).
Proof.
  intros Hd He Ht Hrw Hho Hmk Hsc Hcsv. cbv zeta.
  rewrite (guard_passed w args d Hd He).
  destruct (loop_completes w args (site_name_of w args) (search_terms_of w args)
              initial Hrw Hho Hmk Hsc) as (tl & st & El).
  pose proof (loop_silent _ _ _ _ _ _ _ El) as [Hws Hfs].
  pose proof (loop_next _ _ _ _ _ _ _ El) as (Hts & _ & _ & _ & Hj & Htot & _ & Ho).
  rewrite Ht in Ho, Hts. simpl in Hj, Htot.
  set (path := os_path_join (data_dir_of w args) flat_jobs_list) in *.
  assert (Hm : main w args
               = (tl ++ [Stdout (MFound (totaljobcount st));
                         ToCsv path (jobcollected st) to_csv_kwargs;
                         Stderr (MWriteFailed (WriteError msg))], Next 3)).
  { unfold main. rewrite (bind_next _ _ tl st El). unfold write. rewrite Ho, Hcsv.
    reflexivity. }
  rewrite Hm. simpl.
  change (Stdout MStarting
          :: tl ++ [Stdout (MFound (totaljobcount st));
                    ToCsv path (jobcollected st) to_csv_kwargs;
                    Stderr (MWriteFailed (WriteError msg))])
    with ([Stdout MStarting] ++ tl ++ [Stdout (MFound (totaljobcount st))]
          ++ [ToCsv path (jobcollected st) to_csv_kwargs;
              Stderr (MWriteFailed (WriteError msg))]).
  rewrite !scrape_terms_app, !founds_app, !writes_app, !batches_app, Hws, Hfs, Hts.
  simpl. rewrite !app_nil_r, <- Hj.
  refine (conj eq_refl (conj eq_refl (conj _ (conj eq_refl (conj _ (conj _ _)))))).
  - now rewrite Htot.
  - exists (Stdout MStarting :: tl ++ [Stdout (MFound (totaljobcount st))]).
    simpl. now rewrite <- app_assoc.
  - intros p Hin. apply elem_of_cons in Hin as [[=]|Hin].
    apply elem_of_app in Hin as [Hin|Hin]; [|not_listed Hin].
    destruct (loop_events _ _ _ _ _ _ _ _ El Hin)
      as [(? & [=])|[([=] & _)|[[=]|[(? & ? & ? & [=])|[H|(? & [=])]]]]].
    now destruct H as (? & ? & ? & ? & _ & _ & [=]).
  - intros Hf.
    assert (Hp : path = os_path_join d flat_jobs_list).
    { unfold path, data_dir_of, or_str, _env, str_flag in *. rewrite Hd.
      destruct (data_dir args) as [x|]; [|reflexivity].
      now destruct (Str.truthy x). }
    rewrite Hp. unfold collector, module, environ_getitem. simpl. rewrite Hd.
    unfold print, emit, exit_with, raise, mbind, run_bind, mret, run_ret. simpl.
    rewrite String.eqb_refl. reflexivity.
Qed.

(** X2.  There is no term to process exactly when the resolved term
    string holds nothing but commas and blanks (the empty string, as of
    an empty [SEARCH_TERMS], included). *)
Theorem no_terms_iff (w : World'') args :
  search_terms_of w args = []
  <-> only_separators (or_str (terms args) (_env w "SEARCH_TERMS" "Azure,devops")) = true.
Proof. unfold search_terms_of. apply split_csv_nil_iff. Qed.

(** X14.  The site list is not validated: the provider is called with
    an empty list exactly when the resolved site string holds nothing but
    commas and blanks. *)
Theorem site_list_not_validated (w : World'') args n a res :
  Scrape n a res ∈ (collector w args).1 ->
  kw_site_name a = []
  <-> only_separators
        (or_str (site args) (_env w "SITE_NAME" "indeed,linkedin,glassdoor")) = true.
Proof.
  intros Hin. apply collector_scrape in Hin as (term & rw & ho & _ & _ & -> & _).
  simpl. unfold site_name_of. apply split_csv_nil_iff.
Qed.

(** Without a usable [--data-dir], the file [to_csv] is called on is
    the one the guard looked for. *)
Lemma written_path (w : World'') args p f k :
  str_flag (data_dir args) = None ->
  ToCsv p f k ∈ (collector w args).1 ->
  exists d, environ w !! "DATA_DIR" = Some d
            /\ path_exists w (os_path_join d flat_jobs_list) = false
            /\ p = os_path_join d flat_jobs_list.
Proof.
  intros Hf. destruct (collector w args) as [t o] eqn:Hc. simpl. intros Hin.
  apply collector_cases in Hc
    as [(_ & -> & _)|[(d & _ & _ & -> & _)|(d & tm & r & Hd & He & Hm & -> & _)]].
  - not_listed Hin.
  - not_listed Hin.
  - apply elem_of_cons in Hin as [[=]|Hin]. exists d. split; [exact Hd|].
    split; [exact He|].
    rewrite (main_to_csv_path w args tm r p f k Hm Hin).
    unfold data_dir_of. rewrite or_str_precedence, Hf, Hd. reflexivity.
Qed.

(** X9.  Without a usable [--data-dir] flag a run never writes over a
    file that was there when it started. *)
Theorem no_overwrite_without_flag (w : World'') args p f k :
  str_flag (data_dir args) = None ->
  ToCsv p f k ∈ (collector w args).1 ->
  path_exists w p = false.
Proof.
  intros Hf Hin. destruct (written_path w args p f k Hf Hin) as (d & _ & He & ->).
  exact He.
Qed.

(** X10.  Without a usable [--data-dir] flag, running again once the
    file is written is a skip: the three messages, exit code 0, no
    provider call. *)
Theorem rerun_is_skipped (w : World'') args p f k :
  str_flag (data_dir args) = None ->
  ToCsv p f k ∈ (collector w args).1 ->
  collector (with_file p w) args
  = ([Stdout MStarting; Stdout (MAlreadyExists p); Stdout MExitingNormally], Exit 0).
Proof.
  intros Hf Hin. destruct (written_path w args p f k Hf Hin) as (d & Hd & _ & ->).
  unfold collector, module, environ_getitem. simpl. rewrite Hd.
  unfold print, emit, exit_with, raise, mbind, run_bind, mret, run_ret. simpl.
  rewrite String.eqb_refl. reflexivity.
Qed.

Lemma loop_indices (w : World'') args sites terms st t r :
  loop w args sites st terms = (t, r) ->
  (fun c => c.1.1) <$> scrapes t = seq (calls st) (length (scrapes t)).
Proof.
  revert st t r. induction terms as [|term rest IH]; intros st t r.
  - intros [= <- <-]. reflexivity.
  - rewrite loop_cons. intros [(t1 & st1 & t2 & E1 & E2 & ->)|(o & E1 & ->)]%bind_inv.
    + apply body_next in E1 as (rw & ho & jobs & _ & _ & _ & -> & ->).
      apply IH in E2. simpl in E2.
      destruct (before_call_silent w args sites term rw ho) as (Hs1 & _).
      set (bc := before_call w args sites term rw ho) in *. clearbody bc.
      rewrite !scrapes_app, Hs1. simpl.
      change (list_fmap ?A ?B ?f ?l) with (f <$> l). now rewrite E2.
    + apply body_halt in E1 as [(_ & rw & ho & e & _ & _ & _ & ->)|(_ & Hs & _)].
      * destruct (before_call_silent w args sites term rw ho) as (Hs1 & _).
        set (bc := before_call w args sites term rw ho) in *. clearbody bc.
        rewrite !scrapes_app, Hs1. reflexivity.
      * rewrite Hs. reflexivity.
Qed.

Lemma loop_prefix (w : World'') args sites terms st t r :
  loop w args sites st terms = (t, r) -> scrape_terms t `prefix_of` terms.
Proof.
  intros Hl. destruct r as [st'|[c|e]].
  - apply loop_next in Hl as (-> & _). reflexivity.
  - apply loop_halt in Hl as [(_ & pre & n & a & e & _ & _ & _ & -> & _)|([e [=]] & _)].
    apply prefix_take.
  - apply loop_uncaught_no_call in Hl. unfold scrape_terms. rewrite Hl.
    apply prefix_nil.
Qed.

(** X11.  In every run the provider is asked for an initial stretch of
    the resolved term list, term by term in its order, and the calls are
    numbered from 0 without a gap: no term is skipped, repeated or asked
    for out of turn. *)
Theorem provider_calls_follow_terms (w : World'') args :
  scrape_terms (collector w args).1 `prefix_of` search_terms_of w args
  /\ (fun c => c.1.1) <$> scrapes (collector w args).1
     = seq 0 (length (scrapes (collector w args).1)).
Proof.
  destruct (collector w args) as [t o] eqn:Hc. simpl.
  apply collector_cases in Hc
    as [(_ & -> & _)|[(d & _ & _ & -> & _)|(d & tm & r & _ & _ & Hm & -> & _)]].
  - split; [apply prefix_nil|reflexivity].
  - split; [apply prefix_nil|reflexivity].
  - change (scrape_terms (Stdout MStarting :: tm)) with (scrape_terms tm).
    change (scrapes (Stdout MStarting :: tm)) with (scrapes tm).
    apply main_cases in Hm as [(o' & -> & Hl)|(tl & st & tw & c & Hl & Hw & -> & ->)].
    + split; [eapply loop_prefix; eauto|]. exact (loop_indices _ _ _ _ _ _ _ Hl).
    + apply write_obs in Hw as (Hs2 & _).
      change (tl ++ Stdout (MFound (totaljobcount st)) :: tw)
        with (tl ++ [Stdout (MFound (totaljobcount st))] ++ tw).
      unfold scrape_terms. rewrite !scrapes_app, Hs2. simpl. rewrite app_nil_r.
      split; [eapply loop_prefix; eauto|]. exact (loop_indices _ _ _ _ _ _ _ Hl).
Qed.

(** X12.  Although every pass resolves the configuration afresh, all
    provider calls of a run get the same sites, location, integers,
    country and description switch; the Google term is either the same in
    all calls (flag or variable given) or each call's own term. *)
Theorem shared_config_constant (w : World'') args n1 a1 r1 n2 a2 r2 :
  Scrape n1 a1 r1 ∈ (collector w args).1 ->
  Scrape n2 a2 r2 ∈ (collector w args).1 ->
  shared_config a1 = shared_config a2
  /\ (kw_google_search_term a1 = kw_google_search_term a2
      \/ (kw_google_search_term a1 = kw_search_term a1
          /\ kw_google_search_term a2 = kw_search_term a2)).
Proof.
  intros (t1 & rw1 & ho1 & Hrw1 & Hho1 & -> & _)%collector_scrape
         (t2 & rw2 & ho2 & Hrw2 & Hho2 & -> & _)%collector_scrape.
  unfold resolved_int in *.
  assert (rw1 = rw2) as -> by congruence.
  assert (ho1 = ho2) as -> by congruence.
  split; [reflexivity|]. simpl. unfold or_str, _env.
  destruct (google_term args) as [g|]; [destruct (Str.truthy g); [now left|]|];
    (destruct (environ w !! "GOOGLE_SEARCH_TERM"); [now left|now right]).
Qed.

Lemma before_call_counts (w : World'') args sites term rw ho :
  makedirs_calls (before_call w args sites term rw ho) = [data_dir_of w args]
  /\ warnings (before_call w args sites term rw ho)
     = if both_flags args then [tt] else [].
Proof. unfold before_call, warning. destruct (both_flags args); split; reflexivity. Qed.

Lemma loop_per_pass (w : World'') args sites terms st t r :
  loop w args sites st terms = (t, r) ->
  (forall e, r <> Halt (Uncaught (OSError e))) ->
  makedirs_calls t = replicate (length (scrapes t)) (data_dir_of w args)
  /\ warnings t = replicate (if both_flags args then length (scrapes t) else 0) tt.
Proof.
  revert st t r. induction terms as [|term rest IH]; intros st t r.
  - intros [= <- <-] _. destruct (both_flags args); split; reflexivity.
  - rewrite loop_cons.
    intros [(t1 & st1 & t2 & E1 & E2 & ->)|(o & E1 & ->)]%bind_inv Hno.
    + apply body_next in E1 as (rw & ho & jobs & _ & _ & _ & -> & ->).
      destruct (IH _ _ _ E2 Hno) as [Hm Hw].
      destruct (before_call_silent w args sites term rw ho) as (Hs1 & _).
      destruct (before_call_counts w args sites term rw ho) as [Hm1 Hw1].
      set (bc := before_call w args sites term rw ho) in *. clearbody bc.
      rewrite !makedirs_calls_app, !warnings_app, !scrapes_app, Hs1, Hm1, Hw1, Hm, Hw.
      destruct (both_flags args); split; reflexivity.
    + pose proof (body_spec w args sites st term) as H. rewrite E1 in H.
      inversion H as [? ?|rw ? ? ?|rw ho msg ? ? ?|rw ho e ? ? ? ?
                      |rw ho jobs ? ? ? ?]; subst.
      * destruct (both_flags args); split; reflexivity.
      * destruct (both_flags args); split; reflexivity.
      * now destruct (Hno (data_dir_of w args)).
      * unfold before_call, warning. destruct (both_flags args); split; reflexivity.
Qed.

(** X13.  The directory is made and the both-flags warning is printed
    inside the loop: in a run that does not die in [os.makedirs] there is
    one call of [os.makedirs], always for the resolved output directory,
    for every provider call, and with both flags given one warning for
    every provider call (none otherwise); a run with no term makes no
    directory. *)
Theorem one_makedirs_per_call (w : World'') args :
  (forall e, (collector w args).2 <> Uncaught (OSError e)) ->
  makedirs_calls (collector w args).1
  = replicate (length (scrapes (collector w args).1)) (data_dir_of w args)
  /\ warnings (collector w args).1
     = replicate (if both_flags args then length (scrapes (collector w args).1) else 0) tt.
Proof.
  destruct (collector w args) as [t o] eqn:Hc. simpl. intros Hno.
  apply collector_cases in Hc
    as [(_ & -> & _)|[(d & _ & _ & -> & _)|(d & tm & r & _ & _ & Hm & -> & ->)]].
  - destruct (both_flags args); split; reflexivity.
  - destruct (both_flags args); split; reflexivity.
  - change (makedirs_calls (Stdout MStarting :: tm)) with (makedirs_calls tm).
    change (warnings (Stdout MStarting :: tm)) with (warnings tm).
    change (scrapes (Stdout MStarting :: tm)) with (scrapes tm).
    apply main_cases in Hm as [(o' & -> & Hl)|(tl & st & tw & c & Hl & Hw & -> & ->)].
    + eapply loop_per_pass; [exact Hl|]. intros e [= ->]. now apply (Hno e).
    + assert (Hobs : scrapes tw = [] /\ makedirs_calls tw = [] /\ warnings tw = []).
      { destruct (write_cases w st) as [(_ & E)|[(? & ? & _ & _ & E)|(? & _ & _ & E)]];
          rewrite E in Hw; injection Hw as <- <-; repeat split. }
      destruct Hobs as (Hs2 & Hm2 & Hw2).
      change (tl ++ Stdout (MFound (totaljobcount st)) :: tw)
        with (tl ++ [Stdout (MFound (totaljobcount st))] ++ tw).
      rewrite !makedirs_calls_app, !warnings_app, !scrapes_app, Hs2, Hm2, Hw2.
      simpl. rewrite !app_nil_r.
      eapply loop_per_pass; [exact Hl|]. discriminate.
Qed.

(** X15.  When nothing fails (the guard lets the run through, there is
    a term, the integers resolve, the directory can be made, the provider
    and [to_csv] do not raise) the run exits with 0 after asking for every
    term and writing one file, the batches end to end, under the resolved
    directory; the confirmation is the last thing said. *)
Theorem successful_run (w : World'') args d term rest :
  environ w !! "DATA_DIR" = Some d ->
  path_exists w (os_path_join d flat_jobs_list) = false ->
  search_terms_of w args = term :: rest ->
  (exists rw, resolved_int (results args) (_env w "RESULTS_WANTED" "20") rw) ->
  (exists ho, resolved_int (hours_old args) (_env w "HOURS_OLD" "24") ho) ->
  makedirs_error w (data_dir_of w args) = None ->
  (forall n a e, scrape_jobs w n a <> Raised e) ->
  to_csv_error w (os_path_join (data_dir_of w args) flat_jobs_list) = None ->
  (collector w args).2 = Exit 0
  /\ scrape_terms (collector w args).1 = term :: rest
  /\ writes (collector w args).1
     = [(os_path_join (data_dir_of w args) flat_jobs_list,
         concat (batches (collector w args).1), to_csv_kwargs)]
  /\ last (collector w args).1
     = Some (Stdout (MWrote (os_path_join (data_dir_of w args) flat_jobs_list))).
Proof.
  intros Hd He Ht Hrw Hho Hmk Hsc Hcsv. rewrite (guard_passed w args d Hd He).
  destruct (loop_completes w args (site_name_of w args) (search_terms_of w args)
              initial Hrw Hho Hmk Hsc) as (tl & st & El).
  pose proof (loop_silent _ _ _ _ _ _ _ El) as [Hws Hfs].
  pose proof (loop_next _ _ _ _ _ _ _ El) as (Hts & _ & _ & _ & Hj & _ & _ & Ho).
  rewrite Ht in Ho, Hts. simpl in Hj.
  set (path := os_path_join (data_dir_of w args) flat_jobs_list) in *.
  assert (Hm : main w args
               = (tl ++ [Stdout (MFound (totaljobcount st));
                         ToCsv path (jobcollected st) to_csv_kwargs;
                         Stdout (MWrote path)], Next 0)).
  { unfold main. rewrite (bind_next _ _ tl st El). unfold write. rewrite Ho, Hcsv.
    reflexivity. }
  rewrite Hm. simpl.
  change (Stdout MStarting
          :: tl ++ [Stdout (MFound (totaljobcount st));
                    ToCsv path (jobcollected st) to_csv_kwargs; Stdout (MWrote path)])
    with ([Stdout MStarting] ++ tl
          ++ [Stdout (MFound (totaljobcount st));
              ToCsv path (jobcollected st) to_csv_kwargs]
          ++ [Stdout (MWrote path)]).
  rewrite !scrape_terms_app, !writes_app, !batches_app, Hws, Hts.
  simpl. rewrite !app_nil_r.
  repeat split; auto.
  - now rewrite Hj.
  - apply (last_of_app _ tl [Stdout (MFound (totaljobcount st));
                             ToCsv path (jobcollected st) to_csv_kwargs]).
Qed.

End Coverage.

(** ** The further properties on concrete inputs *)

Lemma env_bool_accepts_witness :
  _env_bool Scenario.fetch_yes "LINKEDIN_FETCH_DESCRIPTION" false = true.
Proof.
  apply (env_bool_accepts Scenario.fetch_yes "LINKEDIN_FETCH_DESCRIPTION" false " YES ").
  - vm_compute. reflexivity.
  - exists " ", "YES", " ". repeat split; try reflexivity.
    vm_compute. apply list_elem_of_further, list_elem_of_further, list_elem_of_here.
Defined.

Lemma malformed_integer_witness :
  collector Scenario3.bad_results Scenario.no_flags
  = ([Stdout MStarting; Stdout (MProcessing "a")], Uncaught (ValueError "many")).
Proof.
  refine (proj1 (malformed_integer Scenario3.bad_results Scenario.no_flags
                   "/out" "a" ["b"] _ _ _) _ _);
    vm_compute; reflexivity.
Defined.

Lemma integer_flags_shield_witness :
  (forall e, (collector Scenario3.bad_integers Scenario3.integer_flags).2
             <> Uncaught (ValueError e))
  /\ (forall n a res,
        Scrape n a res ∈ (collector Scenario3.bad_integers Scenario3.integer_flags).1 ->
        kw_results_wanted a = -3 /\ kw_hours_old a = 12).
Proof.
  apply (integer_flags_shield Scenario3.bad_integers Scenario3.integer_flags (-3) 12);
    reflexivity.
Defined.

Lemma makedirs_failure_witness :
  collector Scenario3.no_directory Scenario.no_flags
  = ([Stdout MStarting; Stdout (MProcessing "a"); Makedirs "/out"],
     Uncaught (OSError "/out")).
Proof.
  exact (makedirs_failure Scenario3.no_directory Scenario.no_flags
           "/out" "a" ["b"] 20 24 "Permission denied"
           eq_refl eq_refl eq_refl eq_refl eq_refl eq_refl).
Defined.

Lemma write_failure_witness :
  (collector Scenario3.disk_full Scenario.no_flags).2 = Exit 3
  /\ scrape_terms (collector Scenario3.disk_full Scenario.no_flags).1 = ["a"; "b"]
  /\ writes (collector Scenario3.disk_full Scenario.no_flags).1
     = [("/out/flat_jobs_list.csv", [1; 1]%nat, to_csv_kwargs)]
  /\ last (collector Scenario3.disk_full Scenario.no_flags).1
     = Some (Stderr (MWriteFailed (WriteError "No space left on device")))
  /\ (collector (with_file "/out/flat_jobs_list.csv" Scenario3.disk_full)
        Scenario.no_flags).2 = Exit 0.
Proof.
  assert (Hrw : exists rw, resolved_int (results Scenario.no_flags)
                             (_env Scenario3.disk_full "RESULTS_WANTED" "20") rw)
    by (exists 20; vm_compute; reflexivity).
  assert (Hho : exists ho, resolved_int (hours_old Scenario.no_flags)
                             (_env Scenario3.disk_full "HOURS_OLD" "24") ho)
    by (exists 24; vm_compute; reflexivity).
  assert (Hsc : forall n a e, scrape_jobs Scenario3.disk_full n a <> Raised e)
    by (intros n a e; vm_compute; discriminate).
  destruct (write_failure Scenario3.disk_full Scenario.no_flags
              "/out" "a" ["b"] "No space left on device"
              eq_refl eq_refl eq_refl Hrw Hho eq_refl Hsc eq_refl)
    as (Ho & Ht & _ & Hw & (pre & Hpre) & _ & Hre).
  split; [exact Ho|]. split; [exact Ht|].
  split; [rewrite Hw; vm_compute; reflexivity|].
  split; [rewrite Hpre, last_app; reflexivity|].
  change "/out/flat_jobs_list.csv"
    with (os_path_join (data_dir_of Scenario3.disk_full Scenario.no_flags) flat_jobs_list).
  rewrite (Hre eq_refl). reflexivity.
Defined.

Lemma no_overwrite_without_flag_witness :
  path_exists Scenario.three_and_five "/out/flat_jobs_list.csv" = false.
Proof.
  apply (no_overwrite_without_flag Scenario.three_and_five Scenario.no_flags
           "/out/flat_jobs_list.csv" [1; 2; 3; 4; 5; 6; 7; 8]%nat to_csv_kwargs).
  - reflexivity.
  - apply elem_of_writes. vm_compute. apply list_elem_of_here.
Defined.

Lemma rerun_is_skipped_witness :
  collector (with_file "/out/flat_jobs_list.csv" Scenario.three_and_five) Scenario.no_flags
  = ([Stdout MStarting; Stdout (MAlreadyExists "/out/flat_jobs_list.csv");
      Stdout MExitingNormally], Exit 0).
Proof.
  apply (rerun_is_skipped Scenario.three_and_five Scenario.no_flags
           "/out/flat_jobs_list.csv" [1; 2; 3; 4; 5; 6; 7; 8]%nat to_csv_kwargs).
  - reflexivity.
  - apply elem_of_writes. vm_compute. apply list_elem_of_here.
Defined.

Lemma shared_config_constant_witness :
  shared_config (Scenario.call_a true)
  = shared_config
      {| kw_site_name := ["indeed"; "linkedin"; "glassdoor"];
         kw_search_term := "b"; kw_google_search_term := "b";
         kw_location := "Canada"; kw_results_wanted := 20; kw_hours_old := 24;
         kw_country_indeed := "canada"; kw_linkedin_fetch_description := true |}.
Proof.
  apply (shared_config_constant Scenario.three_and_five Scenario.no_flags
           0%nat (Scenario.call_a true) (Returned [1; 2; 3]%nat)
           1%nat _ (Returned [4; 5; 6; 7; 8]%nat)).
  - apply elem_of_scrapes. vm_compute. apply list_elem_of_here.
  - apply elem_of_scrapes. vm_compute. apply list_elem_of_further, list_elem_of_here.
Defined.

Lemma one_makedirs_per_call_witness :
  makedirs_calls (collector Scenario.three_and_five Scenario3.both_given).1
  = ["/out"; "/out"]
  /\ warnings (collector Scenario.three_and_five Scenario3.both_given).1 = [tt; tt].
Proof.
  destruct (one_makedirs_per_call Scenario.three_and_five Scenario3.both_given) as [Hm Hw].
  - intros e. vm_compute. discriminate.
  - rewrite Hm, Hw. split; vm_compute; reflexivity.
Defined.

Lemma site_list_not_validated_witness :
  only_separators
    (or_str (site Scenario.no_flags)
       (_env Scenario3.no_sites "SITE_NAME" "indeed,linkedin,glassdoor")) = true.
Proof.
  apply (site_list_not_validated Scenario3.no_sites Scenario.no_flags 0%nat
           {| kw_site_name := [];
              kw_search_term := "a"; kw_google_search_term := "a";
              kw_location := "Canada"; kw_results_wanted := 20; kw_hours_old := 24;
              kw_country_indeed := "canada"; kw_linkedin_fetch_description := true |}
           (Returned [1%nat])).
  - apply elem_of_scrapes. vm_compute. apply list_elem_of_here.
  - reflexivity.
Defined.

Lemma successful_run_witness :
  (collector Scenario3.all_well Scenario.no_flags).2 = Exit 0
  /\ scrape_terms (collector Scenario3.all_well Scenario.no_flags).1 = ["a"; "b"].
Proof.
  assert (Hrw : exists rw, resolved_int (results Scenario.no_flags)
                             (_env Scenario3.all_well "RESULTS_WANTED" "20") rw)
    by (exists 20; vm_compute; reflexivity).
  assert (Hho : exists ho, resolved_int (hours_old Scenario.no_flags)
                             (_env Scenario3.all_well "HOURS_OLD" "24") ho)
    by (exists 24; vm_compute; reflexivity).
  assert (Hsc : forall n a e, scrape_jobs Scenario3.all_well n a <> Raised e)
    by (intros n a e; vm_compute; discriminate).
  destruct (successful_run Scenario3.all_well Scenario.no_flags
              "/out" "a" ["b"] eq_refl eq_refl eq_refl Hrw Hho eq_refl Hsc eq_refl)
    as (Ho & Ht & _).
  auto.
Defined.
